(** * dfTimewolf: the internal state object ([dftimewolf/lib/state.py])

    A shallow embedding of [DFTimewolfState]: the error ledger, the
    container store, the module pool and the per-module tasks of the
    setup and run phases, followed by the properties proved about them.

    Python objects that the code shares by reference (the list objects
    held by [store]) live in an explicit heap, so that aliasing between
    the store and the values handed out by [get_containers] is visible.
    Exceptions, blocking on an [Event] and console output are effects of
    a small monad [M].

    Each method, and the body of each setup and run thread, is embedded
    as one sequential computation on the state.  The fan-out and join of
    the threads in [setup_modules] and [run_modules] is not embedded: the
    properties below are about what one method call or one thread body
    does to the state it starts from. *)

From stdpp Require Import gmap strings list fin_maps.

Local Open Scope string_scope.
Local Open Scope list_scope.

(** ** Exceptions *)

(** The exception objects the code can see.  [except Exception] matches
    instances of [Exception] only; [SystemExit] (raised by [sys.exit]),
    [KeyboardInterrupt] and [GeneratorExit] derive from [BaseException]
    directly and pass through such a clause. *)
Inductive PyException : Type :=
| DFTimewolfError (message : string)
| StdException (cls : string) (text : string)
| SystemExit (code : Z)
| BaseOnlyException (cls : string) (text : string).

(** [error.message] of a [DFTimewolfError]. *)
Definition message (error : PyException) : string :=
  match error with
  | DFTimewolfError m => m
  | StdException _ t => t
  | SystemExit _ => ""
  | BaseOnlyException _ t => t
  end.

(** [str(error)], what the conversion [{0!s}] formats. *)
Definition str (error : PyException) : string :=
  match error with
  | DFTimewolfError m => m
  | StdException _ t => t
  | SystemExit _ => ""
  | BaseOnlyException _ t => t
  end.

Definition isinstance_DFTimewolfError (error : PyException) : bool :=
  match error with
  | DFTimewolfError _ => true
  | _ => false
  end.

(** Modelled from the spec: [dftimewolf/lib/errors.py], which declares
    [DFTimewolfError], is not among the sources; the distinguished domain
    failure is taken to derive from [Exception], as user-defined
    exceptions do. *)
Definition isinstance_Exception (error : PyException) : bool :=
  match error with
  | DFTimewolfError _ => true
  | StdException _ _ => true
  | SystemExit _ => false
  | BaseOnlyException _ _ => false
  end.

(** [KeyError(key)] as a failed dictionary lookup raises it; its [str] is
    the [repr] of the key, here a plain string in quotes. *)
Definition KeyError (key : string) : PyException :=
  StdException "KeyError" ("'" +:+ key +:+ "'").

(** The status the operating system sees when [SystemExit code] reaches
    the top of the main thread: the low eight bits of [code]. *)
Definition exit_status (code : Z) : Z := Z.land code 255.

(** ** Data model *)

Definition loc := positive.

(** An attribute-container class object; only [CONTAINER_TYPE] is read. *)
Record ContainerClass : Type := { CONTAINER_TYPE : string }.

(** What the embedding leaves abstract: the payload of a container, the
    items handed over through [input]/[output], argument dictionaries,
    the configuration object, module classes and module instances. *)
Class Externals : Type := {
  Payload : Type;
  Item : Type;
  Args : Type;
  Config : Type;
  ModuleClass : Type;
  PyModule : Type;
}.

Section Model.
Context `{Ext : Externals}.

(** A container instance; [container.CONTAINER_TYPE] is looked up on its
    class. *)
Record AttributeContainer : Type := {
  container_class : ContainerClass;
  payload : Payload;
}.

(** An entry of [errors] / [global_errors]: the tuple [(error, critical)]. *)
Definition ErrorEntry : Type := (string * bool)%type.

Record ModuleDescription : Type := {
  name : string;
  args : Args;
  wants : list string;
}.

Record Recipe : Type := { modules : list ModuleDescription }.

(** The attributes of [DFTimewolfState], with [heap] holding the list
    objects that the values of [store] (and the lists returned by
    [get_containers]) refer to.  An [Event] is its internal flag.
    [_store_lock] is not a field: every method body below runs as one
    step, so the lock is free at entry and at exit. *)
Record State : Type := mkState {
  errors : list ErrorEntry;
  global_errors : list ErrorEntry;
  input : list Item;
  output : list Item;
  store : gmap string loc;
  heap : gmap loc (list AttributeContainer);
  module_pool : gmap string PyModule;
  config : Config;
  recipe : option Recipe;
  events : gmap string bool;
}.

(** [__init__] *)
Definition init (cfg : Config) : State :=
  {| errors := []; global_errors := []; input := []; output := [];
     store := ∅; heap := ∅; module_pool := ∅; config := cfg;
     recipe := None; events := ∅ |}.

Definition set_errors (v : list ErrorEntry) (s : State) : State :=
  mkState v (global_errors s) (input s) (output s) (store s) (heap s)
          (module_pool s) (config s) (recipe s) (events s).
Definition set_global_errors (v : list ErrorEntry) (s : State) : State :=
  mkState (errors s) v (input s) (output s) (store s) (heap s)
          (module_pool s) (config s) (recipe s) (events s).
Definition set_input (v : list Item) (s : State) : State :=
  mkState (errors s) (global_errors s) v (output s) (store s) (heap s)
          (module_pool s) (config s) (recipe s) (events s).
Definition set_output (v : list Item) (s : State) : State :=
  mkState (errors s) (global_errors s) (input s) v (store s) (heap s)
          (module_pool s) (config s) (recipe s) (events s).
Definition set_store (v : gmap string loc) (s : State) : State :=
  mkState (errors s) (global_errors s) (input s) (output s) v (heap s)
          (module_pool s) (config s) (recipe s) (events s).
Definition set_heap (v : gmap loc (list AttributeContainer)) (s : State) : State :=
  mkState (errors s) (global_errors s) (input s) (output s) (store s) v
          (module_pool s) (config s) (recipe s) (events s).
Definition set_module_pool (v : gmap string PyModule) (s : State) : State :=
  mkState (errors s) (global_errors s) (input s) (output s) (store s) (heap s)
          v (config s) (recipe s) (events s).
Definition set_recipe (v : option Recipe) (s : State) : State :=
  mkState (errors s) (global_errors s) (input s) (output s) (store s) (heap s)
          (module_pool s) (config s) v (events s).
Definition set_events (v : gmap string bool) (s : State) : State :=
  mkState (errors s) (global_errors s) (input s) (output s) (store s) (heap s)
          (module_pool s) (config s) (recipe s) v.

(** ** The effect monad *)

(** How a computation ends: it returns, raises, or is suspended for ever
    in [Event.wait] (no other task runs inside one sequential step). *)
Inductive Outcome (A : Type) : Type :=
| Returns (a : A)
| Raises (e : PyException)
| Blocks.
Global Arguments Returns {A} a.
Global Arguments Raises {A} e.
Global Arguments Blocks {A}.

(** The lines printed, the state left behind and the outcome. *)
Record Run (A : Type) : Type := mkRun {
  printed : list string;
  final : State;
  outcome : Outcome A;
}.
Global Arguments mkRun {A} printed final outcome.
Global Arguments printed {A} r.
Global Arguments final {A} r.
Global Arguments outcome {A} r.

Definition M (A : Type) : Type := State -> Run A.

Definition ret {A} (a : A) : M A := fun s => mkRun [] s (Returns a).

Definition bind {A B} (m : M A) (f : A -> M B) : M B := fun s =>
  let r := m s in
  match outcome r with
  | Returns a =>
      let r' := f a (final r) in
      mkRun (printed r ++ printed r') (final r') (outcome r')
  | Raises e => mkRun (printed r) (final r) (Raises e)
  | Blocks => mkRun (printed r) (final r) Blocks
  end.

Global Instance M_ret : MRet M := @ret.
Global Instance M_bind : MBind M := fun A B f m => bind m f.

Definition gets {A} (f : State -> A) : M A := fun s => mkRun [] s (Returns (f s)).
Definition modify (f : State -> State) : M unit := fun s => mkRun [] (f s) (Returns tt).
Definition raise {A} (e : PyException) : M A := fun s => mkRun [] s (Raises e).
Definition block {A} : M A := fun s => mkRun [] s Blocks.

(** [print(line)] *)
Definition print (line : string) : M unit := fun s => mkRun [line] s (Returns tt).

(** [sys.exit(code)] raises [SystemExit]. *)
Definition sys_exit {A} (code : Z) : M A := raise (SystemExit code).

(** The result of a call into a collaborator that does not touch the state. *)
Definition lift {A} (r : PyException + A) : M A :=
  match r with
  | inl e => raise e
  | inr a => mret a
  end.

(** [for x in l: body] *)
Fixpoint for_each {A} (l : list A) (body : A -> M unit) : M unit :=
  match l with
  | [] => mret tt
  | x :: l' => body x ;; for_each l' body
  end.

(** [try: body / except C1 as error: h1 / except C2 as error: h2 ...]:
    the first clause whose class matches handles the exception; with no
    matching clause it propagates. *)
Definition try_except {A} (body : M A)
    (clauses : list ((PyException -> bool) * (PyException -> M A))) : M A := fun s =>
  let r := body s in
  match outcome r with
  | Raises e =>
      match List.find (fun c => fst c e) clauses with
      | Some c =>
          let r' := snd c e (final r) in
          mkRun (printed r ++ printed r') (final r') (outcome r')
      | None => r
      end
  | _ => r
  end.

(** [with self._store_lock: body] inside one sequential step. *)
Definition with_store_lock {A} (body : M A) : M A := body.

(** ** Collaborators *)

(** The interfaces the state object calls into: the module factory of the
    configuration ([config.get_module(name)] and the call of the class it
    returns, which only binds the new module to the state), the argument
    resolution of [utils], and the two capabilities of a module, which
    receive the whole state. *)
Class Collaborators : Type := {
  get_module : Config -> string -> PyException + ModuleClass;
  instantiate : ModuleClass -> PyException + PyModule;
  import_args_from_dict : Args -> Args -> Config -> PyException + Args;
  setup : PyModule -> Args -> M unit;
  process : PyModule -> M unit;
}.

Context `{Col : Collaborators}.

(** ** Module registry *)

Definition load_recipe (recipe : Recipe) : M unit :=
  modify (set_recipe (Some recipe)) ;;
  for_each (modules recipe) (fun module_description =>
    let module_name := name module_description in
    cfg ← gets config ;
    cls ← lift (get_module cfg module_name) ;
    module ← lift (instantiate cls) ;
    modify (fun s => set_module_pool (<[module_name := module]> (module_pool s)) s)).

(** ** Container store *)

(** A list object is created at an identity that no live reference has. *)
Definition fresh_loc (s : State) : loc :=
  fresh (dom (heap s) ∪ map_img (SA := gset loc) (store s)).

(** The list display [[]]. *)
Definition new_list : M loc := fun s =>
  let l := fresh_loc s in
  mkRun [] (set_heap (<[l := []]> (heap s)) s) (Returns l).

(** [self.store.setdefault(key, default)] *)
Definition store_setdefault (key : string) (default : loc) : M loc := fun s =>
  match store s !! key with
  | Some l => mkRun [] s (Returns l)
  | None => mkRun [] (set_store (<[key := default]> (store s)) s) (Returns default)
  end.

(** [self.store.get(key, default)] *)
Definition store_get (key : string) (default : loc) : M loc :=
  gets (fun s => match store s !! key with Some l => l | None => default end).

(** [l.append(x)] on the list object [l]. *)
Definition list_append (l : loc) (x : AttributeContainer) : M unit :=
  modify (fun s => set_heap (alter (fun xs => xs ++ [x]) l (heap s)) s).

Definition store_container (container : AttributeContainer) : M unit :=
  with_store_lock (
    default ← new_list ;
    l ← store_setdefault (CONTAINER_TYPE (container_class container)) default ;
    list_append l container).

(** The value returned is a reference to a list object. *)
Definition get_containers (container_class : ContainerClass) : M loc :=
  with_store_lock (
    default ← new_list ;
    store_get (CONTAINER_TYPE container_class) default).

(** ** Error ledger *)

Definition add_error (error : string) (critical : bool) : M unit :=
  modify (fun s => set_errors (errors s ++ [(error, critical)]) s).

Definition cleanup : M unit :=
  modify (fun s => set_global_errors (global_errors s ++ errors s) s) ;;
  modify (set_errors []) ;;
  modify (fun s => set_input (output s) s) ;;
  modify (set_output []).

Definition header : string := "dfTimewolf encountered one or more errors:".
Definition abort_notice : string := "Critical error found. Aborting.".

(** ['{0:s}  {1:s}'.format('CRITICAL: ' if critical else '', error)] *)
Definition format_entry (entry : ErrorEntry) : string :=
  (if snd entry then "CRITICAL: " else "") +:+ "  " +:+ fst entry.

Definition check_errors (is_global : bool) : M unit :=
  errors ← gets (if is_global then global_errors else errors) ;
  match errors with
  | [] => mret tt
  | _ :: _ =>
      print header ;;
      for_each errors (fun entry : string * bool =>
        let '(error, critical) := entry in
        print (format_entry (error, critical)) ;;
        if critical then
          (print abort_notice ;;
           sys_exit (-1)%Z : M unit)
        else mret tt)
  end.

(** ** Dependency signals *)

(** [threading.Event()]: a new event, its flag unset. *)
Definition Event : bool := false.

(** [self.events[key]] *)
Definition events_getitem (key : string) : M bool := fun s =>
  match events s !! key with
  | Some event => mkRun [] s (Returns event)
  | None => raise (KeyError key) s
  end.

(** [event.wait()]: returns once the flag is set. *)
Definition wait (event : bool) : M unit :=
  if event then mret tt else block.

(** [self.events[key] = event] *)
Definition events_setitem (key : string) (event : bool) : M unit :=
  modify (fun s => set_events (<[key := event]> (events s)) s).

(** [self.events[key].set()] *)
Definition events_set (key : string) : M unit :=
  _ ← events_getitem key ;
  modify (fun s => set_events (<[key := true]> (events s)) s).

(** [self._module_pool[key]] *)
Definition module_pool_getitem (key : string) : M PyModule := fun s =>
  match module_pool s !! key with
  | Some module => mkRun [] s (Returns module)
  | None => raise (KeyError key) s
  end.

(** ** The tasks of the two phases *)

(** ['An unknown error occurred: {0!s}'.format(error)] *)
Definition unknown_error (error : PyException) : string :=
  "An unknown error occurred: " +:+ str error.

(** ['Module {0:s} completed'.format(name)] *)
Definition completion_notice (module_name : string) : string :=
  "Module " +:+ module_name +:+ " completed".

(** The body of one setup thread; [cli_args] is [vars(args)] of the
    enclosing [setup_modules(args)]. *)
Definition _setup_module_thread (cli_args : Args)
    (module_description : ModuleDescription) : M unit :=
  cfg ← gets config ;
  new_args ← lift (import_args_from_dict (args module_description) cli_args cfg) ;
  module ← module_pool_getitem (name module_description) ;
  try_except (setup module new_args)
    [ (isinstance_Exception, fun error => add_error (unknown_error error) true) ] ;;
  events_setitem (name module_description) Event ;;
  cleanup.

(** The body of one run thread. *)
Definition _run_module_thread (module_description : ModuleDescription) : M unit :=
  for_each (wants module_description) (fun blocker =>
    event ← events_getitem blocker ;
    wait event) ;;
  module ← module_pool_getitem (name module_description) ;
  try_except (process module)
    [ (isinstance_DFTimewolfError, fun error => add_error (message error) true);
      (isinstance_Exception, fun error => add_error (unknown_error error) true) ] ;;
  print (completion_notice (name module_description)) ;;
  events_set (name module_description) ;;
  cleanup.

(** ** The two phases *)

(** [self.recipe['modules']]; subscripting [None] raises [TypeError]. *)
Definition recipe_modules : M (list ModuleDescription) := fun s =>
  match recipe s with
  | Some r => mkRun [] s (Returns (modules r))
  | None => raise (StdException "TypeError" "'NoneType' object is not subscriptable") s
  end.

(** A thread that runs with no other thread at work, seen from the
    caller of [join]: the target runs from the state at [start]; an
    exception that leaves the target ends the thread and is not passed on
    by [join] (its traceback goes to the error stream, which [printed]
    does not record); a target that is suspended for ever suspends
    [join]. *)
Definition in_thread (target : M unit) : M unit := fun s =>
  let r := target s in
  match outcome r with
  | Raises _ => mkRun (printed r) (final r) (Returns tt)
  | _ => r
  end.

(** What starting one thread per target and joining them all does.  How
    several threads interleave is left open. *)
Class Scheduler : Type := {
  start_and_join : list (M unit) -> M unit;
}.

Context `{Sch : Scheduler}.

Definition setup_modules (cli_args : Args) : M unit :=
  descriptions ← recipe_modules ;
  start_and_join (_setup_module_thread cli_args <$> descriptions) ;;
  check_errors true.

Definition run_modules : M unit :=
  descriptions ← recipe_modules ;
  start_and_join (_run_module_thread <$> descriptions) ;;
  check_errors true.

End Model.

(** ** Vocabulary of the statements *)

Section Vocabulary.
Context `{Ext : Externals}.

(** The list [check_errors] scans. *)
Definition scanned (is_global : bool) (s : State) : list ErrorEntry :=
  if is_global then global_errors s else errors s.

(** Entries that are not critical, from their messages. *)
Definition noncritical (msgs : list string) : list ErrorEntry :=
  (fun m => (m, false)) <$> msgs.

(** The run ends the process with a status other than zero. *)
Definition aborts {A} (r : Run A) : bool :=
  match outcome r with
  | Raises (SystemExit code) => negb (exit_status code =? 0)%Z
  | _ => false
  end.

(** The list object behind a reference. *)
Definition deref (l : loc) (s : State) : option (list AttributeContainer) :=
  heap s !! l.

(** The sequence stored under a tag, read through the store. *)
Definition stored (tag : string) (s : State) : option (list AttributeContainer) :=
  store s !! tag ≫= fun l => heap s !! l.

(** Every reference kept in the store points to a list object. *)
Definition store_allocated (s : State) : Prop :=
  forall tag l, store s !! tag = Some l -> is_Some (heap s !! l).

(** What a run returned, if it returned. *)
Definition returned {A} (r : Run A) : option A :=
  match outcome r with
  | Returns a => Some a
  | _ => None
  end.

(** The sequence a caller holds after [get_containers(container_class)]. *)
Definition fetch (container_class : ContainerClass) (s : State)
    : option (list AttributeContainer) :=
  let r := get_containers container_class s in
  returned r ≫= fun l => deref l (final r).

(** Any number of [get_containers] calls, one per class of the list. *)
Definition get_each (classes : list ContainerClass) : M unit :=
  for_each classes (fun c => _ ← get_containers c ; mret tt).

(** Any number of [store_container] calls. *)
Definition store_each (containers : list AttributeContainer) : M unit :=
  for_each containers store_container.

(** The module factory at work: the class for a name, then its instance. *)
Definition resolve `{Col : !Collaborators} (cfg : Config) (module_name : string)
    : PyException + PyModule :=
  match get_module cfg module_name with
  | inl e => inl e
  | inr cls => instantiate cls
  end.

(** What a run task [t] has done in any case once [process] has run as
    [r] and its failure, if any, was caught: the completion notice is
    printed after what [process] printed, and the ledger (global list,
    then local list) holds [entries] on top of what [process] left. *)
Definition run_task_records (module_name : string) (r t : Run unit)
    (entries : list ErrorEntry) : Prop :=
  printed t = printed r ++ [completion_notice module_name] /\
  global_errors (final t) ++ errors (final t)
  = global_errors (final r) ++ errors (final r) ++ entries.

(** How a run task [t] ends once [process] has run as [r]: it returns
    after printing the completion notice, with the module's own event
    set and [cleanup] done, the ledger holding [entries] on top of what
    [process] left. *)
Definition run_task_completes (module_name : string) (r t : Run unit)
    (entries : list ErrorEntry) : Prop :=
  outcome t = Returns tt /\
  printed t = printed r ++ [completion_notice module_name] /\
  events (final t) !! module_name = Some true /\
  errors (final t) = [] /\
  global_errors (final t)
  = global_errors (final r) ++ errors (final r) ++ entries /\
  input (final t) = output (final r) /\
  output (final t) = [].

(** With no thread or one thread there is nothing to interleave: what
    [start_and_join] does is then fixed. *)
Definition schedules_alone `{Sch : !Scheduler} : Prop :=
  (forall s, start_and_join [] s = mkRun [] s (Returns tt)) /\
  (forall target s, start_and_join [target] s = in_thread target s).

(** [container.CONTAINER_TYPE] *)
Definition type_of (container : AttributeContainer) : string :=
  CONTAINER_TYPE (container_class container).

(** No list object is kept under two tags. *)
Definition store_separate (s : State) : Prop :=
  forall tag1 tag2 l,
    store s !! tag1 = Some l -> store s !! tag2 = Some l -> tag1 = tag2.

(** The sequence kept under a tag, empty when the tag has none. *)
Definition contents (tag : string) (s : State) : list AttributeContainer :=
  default [] (stored tag s).

(** The containers of a list that carry a given tag, in their order. *)
Definition of_type (tag : string) (containers : list AttributeContainer)
    : list AttributeContainer :=
  filter (fun c => type_of c = tag) containers.

(** Any number of [add_error] calls. *)
Definition add_errors (entries : list ErrorEntry) : M unit :=
  for_each entries (fun entry => add_error (fst entry) (snd entry)).

(** The entries the handlers of the run task record for what [process]
    did: one critical entry for an exception they catch, none otherwise. *)
Definition recorded_for (o : Outcome unit) : list ErrorEntry :=
  match o with
  | Raises e =>
      if isinstance_DFTimewolfError e then [(message e, true)]
      else if isinstance_Exception e then [(unknown_error e, true)]
      else []
  | _ => []
  end.

End Vocabulary.

(** ** A concrete instance, for evaluating the model *)

Module Demo.

(** Modules with a fixed behaviour in each capability: it works, it
    reports a warning through [add_error], or it raises. *)
Inductive Behaviour : Type :=
| Works
| Warns (msg : string)
| Fails (e : PyException).

Record DemoModule : Type := { on_setup : Behaviour; on_process : Behaviour }.

#[export] Instance demo_externals : Externals := {|
  Payload := nat;
  Item := nat;
  Args := list (string * string);
  Config := unit;
  ModuleClass := DemoModule;
  PyModule := DemoModule;
|}.

Definition behave (b : Behaviour) : M unit :=
  match b with
  | Works => mret tt
  | Warns msg => add_error msg false
  | Fails e => raise e
  end.

Definition no_args : @Args demo_externals := [].

Definition mod_A : @PyModule demo_externals :=
  {| on_setup := Works; on_process := Works |}.
Definition mod_B : @PyModule demo_externals :=
  {| on_setup := Works; on_process := Fails (DFTimewolfError "disk full") |}.
Definition mod_C : @PyModule demo_externals :=
  {| on_setup := Fails (StdException "ValueError" "bad path");
     on_process := Fails (StdException "IOError" "no such file") |}.
Definition mod_D : @PyModule demo_externals :=
  {| on_setup := Fails (SystemExit 1);
     on_process := Fails (BaseOnlyException "KeyboardInterrupt" "") |}.
Definition mod_W : @PyModule demo_externals :=
  {| on_setup := Works; on_process := Warns "slow disk" |}.
Definition mod_E : @PyModule demo_externals :=
  {| on_setup := Fails (SystemExit 1);
     on_process := Fails (DFTimewolfError "disk full") |}.

(** The factory knows six module names. *)
Definition demo_get_module (_ : unit) (module_name : string)
    : PyException + DemoModule :=
  if String.eqb module_name "A" then inr mod_A
  else if String.eqb module_name "B" then inr mod_B
  else if String.eqb module_name "C" then inr mod_C
  else if String.eqb module_name "D" then inr mod_D
  else if String.eqb module_name "W" then inr mod_W
  else if String.eqb module_name "E" then inr mod_E
  else inl (KeyError module_name).

#[export] Instance demo_collaborators : Collaborators := {|
  get_module := demo_get_module;
  instantiate := fun cls => inr cls;
  import_args_from_dict := fun declared cli _ => inr (cli ++ declared);
  setup := fun m _ => behave (on_setup m);
  process := fun m => behave (on_process m);
|}.

Definition describe (module_name : string) (blockers : list string)
    : ModuleDescription :=
  {| name := module_name; args := []; wants := blockers |}.

Definition demo_recipe : Recipe :=
  {| modules := [describe "A" []; describe "B" ["A"]; describe "C" [];
                 describe "D" []; describe "W" []] |}.

(** A recipe naming a module the factory does not know. *)
Definition bad_recipe : Recipe :=
  {| modules := [describe "A" []; describe "X" []; describe "B" ["A"]] |}.

Definition T : ContainerClass := {| CONTAINER_TYPE := "T" |}.
Definition U : ContainerClass := {| CONTAINER_TYPE := "U" |}.
Definition c0 : AttributeContainer := {| container_class := T; payload := 0 |}.
Definition c1 : AttributeContainer := {| container_class := T; payload := 1 |}.
Definition c2 : AttributeContainer := {| container_class := T; payload := 2 |}.
Definition u7 : AttributeContainer := {| container_class := U; payload := 7 |}.
Definition u8 : AttributeContainer := {| container_class := U; payload := 8 |}.

(** A fresh state; the state after one container was stored; the state
    with the recipe loaded; the state in which every module has its event
    and [A] has completed its run; a state whose global list holds a
    critical entry between two others, and one whose local list alone
    holds entries. *)
Definition s0 : State := init tt.
Definition s1 : State := final (store_container c0 s0).
Definition loaded : State := final (load_recipe demo_recipe s0).
Definition ready : State :=
  set_events (list_to_map [("A", true); ("B", false); ("C", false);
                           ("D", false); ("W", false)]) loaded.
Definition reported : State :=
  set_global_errors [("slow disk", false); ("disk full", true); ("late", false)] s0.
Definition pending : State :=
  set_errors [("disk full", true)] s0.

(** A scheduler to evaluate with: every thread runs to its end before
    the next one is started. *)
Fixpoint one_after_another (targets : list (M unit)) : M unit :=
  match targets with
  | [] => mret tt
  | [target] => in_thread target
  | target :: rest => in_thread target ;; one_after_another rest
  end.

#[export] Instance demo_scheduler : Scheduler := {|
  start_and_join := one_after_another;
|}.

(** The state with a recipe of one module loaded, and that state after
    the setup phase. *)
Definition lone (md : ModuleDescription) : State :=
  final (load_recipe {| modules := [md] |} s0).
Definition lone_set_up (md : ModuleDescription) : State :=
  final (setup_modules no_args (lone md)).

(** The state with a recipe of no module loaded, holding a warning. *)
Definition idle : State :=
  set_global_errors [("slow disk", false)]
    (final (load_recipe {| modules := [] |} s0)).

End Demo.

(** ** Properties *)

Section Properties.
Context `{Ext : Externals} `{Col : !Collaborators}.

Lemma bind_run {A B} (m : M A) (f : A -> M B) (s : State) :
  (m ≫= f) s =
  match outcome (m s) with
  | Returns a =>
      mkRun (printed (m s) ++ printed (f a (final (m s))))
            (final (f a (final (m s)))) (outcome (f a (final (m s))))
  | Raises e => mkRun (printed (m s)) (final (m s)) (Raises e)
  | Blocks => mkRun (printed (m s)) (final (m s)) Blocks
  end.
Proof. reflexivity. Qed.

Lemma run_eta {A} (r : Run A) : mkRun (printed r) (final r) (outcome r) = r.
Proof. by destruct r. Qed.

(** A first step that prints nothing hands over to the rest. *)
Lemma bind_quiet {A B} (m : M A) (f : A -> M B) (s s' : State) (a : A) :
  m s = mkRun [] s' (Returns a) -> (m ≫= f) s = f a s'.
Proof. intros E. rewrite bind_run, E. cbn. apply run_eta. Qed.

(** The body of the loop of [check_errors]. *)
Local Abbreviation check_entry := (fun entry : string * bool =>
  let '(error, critical) := entry in
  print (format_entry (error, critical)) ;;
  if critical then (print abort_notice ;; sys_exit (-1)%Z : M unit) else mret tt).

Lemma check_errors_unfold (is_global : bool) (s : State) :
  check_errors is_global s =
  match scanned is_global s with
  | [] => mkRun [] s (Returns tt)
  | _ :: _ =>
      let r := for_each (scanned is_global s) check_entry s in
      mkRun (header :: printed r) (final r) (outcome r)
  end.
Proof.
  unfold check_errors, scanned. rewrite bind_run. cbn [gets outcome final printed].
  destruct is_global.
  - destruct (global_errors s) as [|e l] eqn:E; [reflexivity|].
    rewrite bind_run. cbn [print outcome final printed]. reflexivity.
  - destruct (errors s) as [|e l] eqn:E; [reflexivity|].
    rewrite bind_run. cbn [print outcome final printed]. reflexivity.
Qed.

Lemma scan_noncritical (msgs : list string) (rest : list ErrorEntry) (s : State) :
  for_each (noncritical msgs ++ rest) check_entry s =
  let r := for_each rest check_entry s in
  mkRun ((format_entry <$> noncritical msgs) ++ printed r) (final r) (outcome r).
Proof.
  induction msgs as [|m msgs IH]; cbn [noncritical fmap list_fmap app for_each].
  - cbn. by rewrite run_eta.
  - rewrite bind_run. rewrite bind_run. cbn [print outcome final printed mret M_ret ret].
    fold (noncritical msgs). rewrite IH. cbn. reflexivity.
Qed.

Lemma scan_critical (m : string) (later : list ErrorEntry) (s : State) :
  for_each ((m, true) :: later) check_entry s =
  mkRun [format_entry (m, true); abort_notice] s (Raises (SystemExit (-1))).
Proof. reflexivity. Qed.

Lemma scan_end (s : State) :
  for_each [] check_entry s = mkRun [] s (Returns tt).
Proof. reflexivity. Qed.

Lemma ledger_split (l : list ErrorEntry) :
  (exists msgs, l = noncritical msgs) \/
  (exists msgs m later, l = noncritical msgs ++ (m, true) :: later).
Proof.
  induction l as [|[m c] l IH].
  - left. by exists [].
  - destruct c.
    + right. by exists [], m, l.
    + destruct IH as [[msgs ->]|(msgs & m' & later & ->)].
      * left. by exists (m :: msgs).
      * right. by exists (m :: msgs), m', later.
Qed.

Lemma noncritical_no_critical (msgs : list string) (m : string) :
  (m, true) ∉ noncritical msgs.
Proof.
  unfold noncritical. intros (m' & Heq & _)%list_elem_of_fmap. congruence.
Qed.

Lemma check_errors_critical (is_global : bool) (s : State)
    (msgs : list string) (m : string) (later : list ErrorEntry) :
  scanned is_global s = noncritical msgs ++ (m, true) :: later ->
  check_errors is_global s =
  mkRun (header :: (format_entry <$> noncritical msgs)
                ++ [format_entry (m, true); abort_notice])
        s (Raises (SystemExit (-1))).
Proof.
  intros E. rewrite check_errors_unfold, E.
  destruct (noncritical msgs ++ (m, true) :: later) as [|e l] eqn:E'.
  { by destruct msgs. }
  rewrite <- E', scan_noncritical, scan_critical. reflexivity.
Qed.

Lemma check_errors_noncritical (is_global : bool) (s : State) (msgs : list string) :
  scanned is_global s = noncritical msgs ->
  check_errors is_global s =
  mkRun match msgs with
        | [] => []
        | _ :: _ => header :: (format_entry <$> noncritical msgs)
        end s (Returns tt).
Proof.
  intros E. rewrite check_errors_unfold, E.
  destruct msgs as [|m msgs]; [reflexivity|].
  pose proof (scan_noncritical (m :: msgs) [] s) as H.
  rewrite app_nil_r, scan_end in H. cbn [printed final outcome] in H.
  rewrite app_nil_r in H.
  change (noncritical (m :: msgs)) with ((m, false) :: noncritical msgs) at 1.
  cbv beta iota zeta. by rewrite H.
Qed.

Lemma check_errors_aborts_iff (is_global : bool) (s : State) :
  aborts (check_errors is_global s) = true <->
  exists m, (m, true) ∈ scanned is_global s.
Proof.
  destruct (ledger_split (scanned is_global s))
    as [[msgs E]|(msgs & m & later & E)].
  - rewrite (check_errors_noncritical _ _ _ E), E. split; [done|].
    intros [m Hm]. by apply noncritical_no_critical in Hm.
  - rewrite (check_errors_critical _ _ _ _ _ E), E. split; [|done].
    intros _. exists m. apply elem_of_app. right. by left.
Qed.

(** C1: [check_errors] ends the process with a non-zero status exactly
    when the scanned list holds a critical entry; it prints the header,
    the entries in insertion order up to and including the first critical
    one and the abort notice, whatever follows that entry; with no
    critical entry it prints every entry and returns.  The state is left
    as it was. *)
Theorem check_errors_aborts_at_first_critical (is_global : bool) (s : State) :
  (aborts (check_errors is_global s) = true <->
     exists m, (m, true) ∈ scanned is_global s) /\
  (forall msgs m later,
     scanned is_global s = noncritical msgs ++ (m, true) :: later ->
     printed (check_errors is_global s) =
       header :: (format_entry <$> noncritical msgs)
              ++ [format_entry (m, true); abort_notice] /\
     outcome (check_errors is_global s) = Raises (SystemExit (-1)) /\
     exit_status (-1) = 255%Z /\
     final (check_errors is_global s) = s) /\
  (forall msgs,
     scanned is_global s = noncritical msgs ->
     printed (check_errors is_global s) =
       match msgs with
       | [] => []
       | _ :: _ => header :: (format_entry <$> noncritical msgs)
       end /\
     outcome (check_errors is_global s) = Returns tt /\
     final (check_errors is_global s) = s).
Proof.
  split; [|split].
  - apply check_errors_aborts_iff.
  - intros msgs m later E. by rewrite (check_errors_critical _ _ _ _ _ E).
  - intros msgs E. by rewrite (check_errors_noncritical _ _ _ E).
Qed.

(** C10: on an empty list [check_errors] prints nothing, not even the
    header, and returns. *)
Theorem check_errors_empty_silent (is_global : bool) (s : State) :
  scanned is_global s = [] ->
  check_errors is_global s = mkRun [] s (Returns tt).
Proof.
  intros E. by rewrite check_errors_unfold, E.
Qed.

(** *** The container store *)

Lemma fresh_loc_unallocated (s : State) : heap s !! fresh_loc s = None.
Proof.
  apply not_elem_of_dom. unfold fresh_loc.
  pose proof (is_fresh (dom (heap s) ∪ map_img (SA := gset loc) (store s))).
  set_solver.
Qed.

Lemma fresh_loc_not_stored (s : State) (tag : string) (l : loc) :
  store s !! tag = Some l -> l <> fresh_loc s.
Proof.
  intros Hl ->. unfold fresh_loc in Hl.
  pose proof (is_fresh (dom (heap s) ∪ map_img (SA := gset loc) (store s))) as Hf.
  apply Hf, elem_of_union_r, elem_of_map_img. eauto.
Qed.

Lemma fresh_loc_not_allocated (s : State) (l : loc) :
  is_Some (heap s !! l) -> l <> fresh_loc s.
Proof.
  intros [xs Hl] ->. by rewrite fresh_loc_unallocated in Hl.
Qed.

Lemma store_container_run (container : AttributeContainer) (s : State) :
  store_container container s =
  let l0 := fresh_loc s in
  let h := <[l0 := []]> (heap s) in
  let tag := CONTAINER_TYPE (container_class container) in
  match store s !! tag with
  | Some l =>
      mkRun [] (set_heap (alter (fun xs => xs ++ [container]) l h) s) (Returns tt)
  | None =>
      mkRun [] (set_heap (alter (fun xs => xs ++ [container]) l0 h)
                  (set_store (<[tag := l0]> (store s)) s)) (Returns tt)
  end.
Proof.
  unfold store_container, with_store_lock. rewrite bind_run.
  cbn [new_list outcome final printed]. rewrite bind_run.
  unfold store_setdefault. cbn [store set_heap].
  by destruct (store s !! CONTAINER_TYPE (container_class container)).
Qed.

Lemma get_containers_run (container_class : ContainerClass) (s : State) :
  get_containers container_class s =
  mkRun [] (set_heap (<[fresh_loc s := []]> (heap s)) s)
        (Returns match store s !! CONTAINER_TYPE container_class with
                 | Some l => l
                 | None => fresh_loc s
                 end).
Proof. reflexivity. Qed.

Lemma store_container_returns (container : AttributeContainer) (s : State) :
  outcome (store_container container s) = Returns tt /\
  printed (store_container container s) = [].
Proof.
  rewrite store_container_run. cbv zeta.
  by destruct (store s !! CONTAINER_TYPE (container_class container)).
Qed.

(** One more container under a tag that already has a sequence. *)
Lemma store_container_present (container : AttributeContainer) (s : State)
    (old : list AttributeContainer) :
  stored (CONTAINER_TYPE (container_class container)) s = Some old ->
  stored (CONTAINER_TYPE (container_class container))
         (final (store_container container s)) = Some (old ++ [container]).
Proof.
  unfold stored. rewrite store_container_run. cbv zeta.
  destruct (store s !! CONTAINER_TYPE (container_class container)) as [l|] eqn:E;
    [|done].
  cbn. intros Hold. rewrite E. cbn.
  rewrite lookup_alter_eq, lookup_insert_ne by (symmetry; eauto using fresh_loc_not_stored).
  by rewrite Hold.
Qed.

(** The first container under a tag. *)
Lemma store_container_absent (container : AttributeContainer) (s : State) :
  store s !! CONTAINER_TYPE (container_class container) = None ->
  stored (CONTAINER_TYPE (container_class container))
         (final (store_container container s)) = Some [container].
Proof.
  intros E. unfold stored. rewrite store_container_run. cbv zeta. rewrite E.
  cbn. rewrite lookup_insert_eq. cbn.
  by rewrite lookup_alter_eq, lookup_insert_eq.
Qed.

Lemma fetch_present (container_class : ContainerClass) (s : State)
    (xs : list AttributeContainer) :
  stored (CONTAINER_TYPE container_class) s = Some xs ->
  fetch container_class s = Some xs.
Proof.
  unfold stored, fetch, returned, deref. rewrite get_containers_run. cbn.
  destruct (store s !! CONTAINER_TYPE container_class) as [l|] eqn:E; [|done].
  cbn. intros Hxs.
  by rewrite lookup_insert_ne by (symmetry; eauto using fresh_loc_not_stored).
Qed.

Lemma fetch_absent (container_class : ContainerClass) (s : State) :
  store s !! CONTAINER_TYPE container_class = None ->
  fetch container_class s = Some [].
Proof.
  intros E. unfold fetch, returned, deref. rewrite get_containers_run. cbn.
  rewrite E. by rewrite lookup_insert_eq.
Qed.

Lemma seq_run {A B} (m : M A) (k : M B) (s : State) (a : A) :
  outcome (m s) = Returns a ->
  (m ;; k) s =
  mkRun (printed (m s) ++ printed (k (final (m s))))
        (final (k (final (m s)))) (outcome (k (final (m s)))).
Proof. intros E. rewrite bind_run. by rewrite E. Qed.

Lemma for_each_cons_run {A} (x : A) (l : list A) (body : A -> M unit) (s : State) :
  outcome (body x s) = Returns tt ->
  for_each (x :: l) body s =
  mkRun (printed (body x s) ++ printed (for_each l body (final (body x s))))
        (final (for_each l body (final (body x s))))
        (outcome (for_each l body (final (body x s)))).
Proof. intros E. cbn [for_each]. by rewrite (seq_run _ _ _ tt E). Qed.

(** A list object that the store does not hold is out of reach of
    [store_container]. *)
Lemma store_container_unshared (container : AttributeContainer) (s : State)
    (l : loc) (xs : list AttributeContainer) :
  heap s !! l = Some xs ->
  (forall tag, store s !! tag <> Some l) ->
  heap (final (store_container container s)) !! l = Some xs /\
  (forall tag, store (final (store_container container s)) !! tag <> Some l).
Proof.
  intros Hl Hns. assert (l <> fresh_loc s) as Hfresh
    by (apply fresh_loc_not_allocated; eauto).
  rewrite store_container_run. cbv zeta.
  destruct (store s !! CONTAINER_TYPE (container_class container)) as [l'|] eqn:E; cbn.
  - split; [|done].
    assert (l' <> l) by (intros ->; by apply (Hns _) in E).
    by rewrite lookup_alter_ne, lookup_insert_ne.
  - split.
    + by rewrite lookup_alter_ne, lookup_insert_ne.
    + intros tag. destruct (decide (CONTAINER_TYPE (container_class container) = tag))
        as [<-|Hne].
      * rewrite lookup_insert_eq. congruence.
      * rewrite lookup_insert_ne by done. apply Hns.
Qed.

Lemma store_each_unshared (containers : list AttributeContainer) (s : State)
    (l : loc) (xs : list AttributeContainer) :
  heap s !! l = Some xs ->
  (forall tag, store s !! tag <> Some l) ->
  heap (final (store_each containers s)) !! l = Some xs.
Proof.
  revert s. induction containers as [|c cs IH]; intros s Hl Hns; [done|].
  unfold store_each.
  rewrite for_each_cons_run by apply store_container_returns.
  cbn [final]. destruct (store_container_unshared c s l xs Hl Hns) as [Hl' Hns'].
  by apply IH.
Qed.

Lemma get_containers_frame (container_class : ContainerClass) (s : State) :
  let s' := final (get_containers container_class s) in
  store s' = store s /\
  (forall tag, stored tag s' = stored tag s) /\
  (forall l, is_Some (heap s !! l) -> heap s' !! l = heap s !! l).
Proof.
  rewrite get_containers_run. cbn. split; [done|]. split.
  - intros tag. unfold stored. cbn.
    destruct (store s !! tag) as [l|] eqn:E; [|done]. cbn.
    by rewrite lookup_insert_ne by (symmetry; eauto using fresh_loc_not_stored).
  - intros l Hl.
    by rewrite lookup_insert_ne by (symmetry; eauto using fresh_loc_not_allocated).
Qed.

(** C4 (amended): storing [c1] then [c2] under tag [T] and fetching [T]
    yields the sequence stored under [T] before, followed by [c1; c2] in
    that order -- [c1; c2] itself when nothing was stored under [T]
    before; fetching a tag with nothing stored yields the empty sequence
    and raises nothing. *)
Theorem store_then_fetch_appends (s : State) (c1 c2 : AttributeContainer)
    (T : ContainerClass) :
  CONTAINER_TYPE (container_class c1) = CONTAINER_TYPE T ->
  CONTAINER_TYPE (container_class c2) = CONTAINER_TYPE T ->
  (forall old,
     stored (CONTAINER_TYPE T) s = Some old ->
     fetch T (final ((store_container c1 ;; store_container c2) s))
     = Some (old ++ [c1; c2])) /\
  (store s !! CONTAINER_TYPE T = None ->
     fetch T (final ((store_container c1 ;; store_container c2) s))
     = Some [c1; c2]) /\
  (forall (U : ContainerClass) (s' : State),
     store s' !! CONTAINER_TYPE U = None ->
     fetch U s' = Some [] /\
     is_Some (returned (get_containers U s'))).
Proof.
  intros T1 T2.
  rewrite (seq_run _ _ _ tt (proj1 (store_container_returns c1 s))). cbn [final].
  split; [|split].
  - intros old Hold. apply fetch_present. rewrite <- T2.
    replace (old ++ [c1; c2]) with ((old ++ [c1]) ++ [c2])
      by (by rewrite <- app_assoc).
    apply store_container_present. rewrite T2, <- T1.
    apply store_container_present. by rewrite T1.
  - intros Hnone. apply fetch_present. rewrite <- T2.
    change ([c1; c2]) with ([c1] ++ [c2]).
    apply store_container_present. rewrite T2, <- T1.
    apply store_container_absent. by rewrite T1.
  - intros U s' Hnone. split; [by apply fetch_absent|].
    rewrite get_containers_run. unfold returned. cbn. eauto.
Qed.

(** C8 (amended): for a tag with a stored sequence, [get_containers]
    returns the store's own list object, a live view: a later
    [store_container] under that tag appends to the sequence returned
    earlier.  Only for a tag with nothing stored is the returned sequence
    (a new empty list) left as it is by later store operations. *)
Theorem get_containers_returns_live_list (s : State) (T : ContainerClass)
    (c : AttributeContainer) (l : loc) :
  CONTAINER_TYPE (container_class c) = CONTAINER_TYPE T ->
  returned (get_containers T s) = Some l ->
  (forall xs,
     stored (CONTAINER_TYPE T) s = Some xs ->
     deref l (final (get_containers T s)) = Some xs /\
     deref l (final (store_container c (final (get_containers T s))))
     = Some (xs ++ [c])) /\
  (store s !! CONTAINER_TYPE T = None ->
     deref l (final (get_containers T s)) = Some [] /\
     forall later,
       deref l (final (store_each later (final (get_containers T s)))) = Some []).
Proof.
  intros Tc. rewrite get_containers_run. unfold returned, deref. cbn.
  intros H. split.
  - intros xs Hxs. unfold stored in Hxs.
    destruct (store s !! CONTAINER_TYPE T) as [l'|] eqn:E; [|done].
    cbn in Hxs. injection H as <-.
    assert (l' <> fresh_loc s) as Hne by eauto using fresh_loc_not_stored.
    split; [by rewrite lookup_insert_ne|].
    pose proof (store_container_present c
      (set_heap (<[fresh_loc s:=[]]> (heap s)) s) xs) as Hp.
    unfold stored in Hp. rewrite Tc in Hp. cbn [store set_heap heap] in Hp.
    rewrite E in Hp. cbn in Hp. rewrite lookup_insert_ne in Hp by done.
    specialize (Hp Hxs).
    destruct (store (final (store_container c
      (set_heap (<[fresh_loc s:=[]]> (heap s)) s))) !! CONTAINER_TYPE T)
      as [l''|] eqn:E'; [|done].
    cbn in Hp. enough (l'' = l') as -> by done.
    revert E'. rewrite store_container_run. cbv zeta. cbn [store set_heap].
    rewrite Tc, E. cbn. congruence.
  - intros E. rewrite E in H. injection H as <-.
    split; [by rewrite lookup_insert_eq|].
    intros later. apply store_each_unshared; cbn.
    + by rewrite lookup_insert_eq.
    + intros tag Htag. by apply fresh_loc_not_stored in Htag.
Qed.

(** C9: [get_containers] never changes the store: after any number of
    calls the dictionary (and so its key set) is the same, every stored
    sequence is the same, and every list object that existed is
    untouched; a tag with nothing stored gets no entry. *)
Theorem get_containers_leaves_store (classes : list ContainerClass) (s : State) :
  outcome (get_each classes s) = Returns tt /\
  store (final (get_each classes s)) = store s /\
  dom (store (final (get_each classes s))) = dom (store s) /\
  (forall tag, stored tag (final (get_each classes s)) = stored tag s) /\
  (forall l, is_Some (heap s !! l) ->
     heap (final (get_each classes s)) !! l = heap s !! l).
Proof.
  revert s. induction classes as [|c cs IH]; intros s; [done|].
  unfold get_each in *.
  rewrite for_each_cons_run by done. cbn [final outcome].
  rewrite bind_run. cbn [outcome final get_containers_run mret M_ret ret].
  rewrite get_containers_run. cbn [outcome final].
  pose proof (get_containers_frame c s) as (Hs & Hst & Hh).
  rewrite get_containers_run in Hs, Hst, Hh. cbn [final] in Hs, Hst, Hh.
  destruct (IH (set_heap (<[fresh_loc s:=[]]> (heap s)) s))
    as (IH1 & IH2 & IH3 & IH4 & IH5).
  split; [done|]. split; [by rewrite IH2|]. split; [by rewrite IH3, Hs|].
  split.
  - intros tag. by rewrite IH4.
  - intros l Hl. rewrite IH5; [by apply Hh|]. rewrite Hh; done.
Qed.

(** *** The error ledger: [cleanup] *)

Lemma cleanup_run (s : State) :
  cleanup s =
  mkRun [] (mkState [] (global_errors s ++ errors s) (output s) []
              (store s) (heap s) (module_pool s) (config s) (recipe s) (events s))
        (Returns tt).
Proof. reflexivity. Qed.

(** *** The module registry *)

(** The body of the loop of [load_recipe]. *)
Local Abbreviation load_module := (fun module_description : ModuleDescription =>
  let module_name := name module_description in
  cfg ← gets config ;
  cls ← lift (get_module cfg module_name) ;
  module ← lift (instantiate cls) ;
  modify (fun s => set_module_pool (<[module_name := module]> (module_pool s)) s)).

Lemma load_module_run (module_description : ModuleDescription) (s : State) :
  load_module module_description s =
  match resolve (config s) (name module_description) with
  | inl e => mkRun [] s (Raises e)
  | inr module =>
      mkRun [] (set_module_pool
                  (<[name module_description := module]> (module_pool s)) s)
            (Returns tt)
  end.
Proof.
  unfold resolve. cbv zeta. rewrite bind_run. cbn [gets outcome final printed].
  rewrite bind_run.
  destruct (get_module (config s) (name module_description)) as [e|cls]; [done|].
  cbn [lift mret M_ret ret outcome final printed]. rewrite bind_run.
  by destruct (instantiate cls) as [e|m].
Qed.

Lemma load_recipe_run (recipe : Recipe) (s : State) :
  load_recipe recipe s =
  for_each (modules recipe) load_module (set_recipe (Some recipe) s).
Proof.
  unfold load_recipe. rewrite (seq_run _ _ _ tt) by done.
  cbn [modify printed final outcome app]. by rewrite run_eta.
Qed.

(** The loop touches nothing but the module pool. *)
Lemma load_modules_frame (mods : list ModuleDescription) (s : State) :
  let s' := final (for_each mods load_module s) in
  errors s' = errors s /\ global_errors s' = global_errors s /\
  config s' = config s /\ recipe s' = recipe s /\
  printed (for_each mods load_module s) = [].
Proof.
  revert s. induction mods as [|md mods IH]; intros s; [done|].
  cbn [for_each]. rewrite bind_run, load_module_run.
  destruct (resolve (config s) (name md)) as [e|m]; [done|].
  cbn [outcome final printed app].
  destruct (IH (set_module_pool (<[name md:=m]> (module_pool s)) s))
    as (? & ? & ? & ? & ?). done.
Qed.

Lemma load_modules_ok (mods : list ModuleDescription) (s : State) (k : string) :
  outcome (for_each mods load_module s) = Returns tt ->
  (k ∈ name <$> mods ->
     exists m, resolve (config s) k = inr m /\
               module_pool (final (for_each mods load_module s)) !! k = Some m) /\
  (k ∉ name <$> mods ->
     module_pool (final (for_each mods load_module s)) !! k = module_pool s !! k).
Proof.
  revert s. induction mods as [|md mods IH]; intros s.
  { intros _. split; [by intros ?%elem_of_nil|done]. }
  cbn [for_each]. rewrite bind_run, load_module_run.
  destruct (resolve (config s) (name md)) as [e|m] eqn:R; [done|].
  cbn [outcome final printed]. intros Hok.
  destruct (IH _ Hok) as [IHin IHout]. cbn [config set_module_pool] in IHin.
  cbn [module_pool set_module_pool] in IHout.
  destruct (decide (k ∈ name <$> mods)) as [Hin|Hnin].
  - split; [intros _; by apply IHin|].
    intros Hn. exfalso. apply Hn. rewrite fmap_cons. by apply list_elem_of_further.
  - rewrite IHout by done. rewrite fmap_cons. split.
    + intros [->|?]%elem_of_cons; [|done].
      exists m. by rewrite lookup_insert_eq.
    + intros Hn. rewrite lookup_insert_ne; [done|].
      intros <-. apply Hn. by left.
Qed.

Lemma load_modules_first_failure (pre later : list ModuleDescription)
    (md : ModuleDescription) (e : PyException) (s : State) :
  (forall d, d ∈ pre -> exists m, resolve (config s) (name d) = inr m) ->
  get_module (config s) (name md) = inl e ->
  outcome (for_each (pre ++ md :: later) load_module s) = Raises e.
Proof.
  revert s. induction pre as [|d pre IH]; intros s Hpre Hfail.
  - cbn [app for_each]. rewrite bind_run, load_module_run. unfold resolve.
    by rewrite Hfail.
  - cbn [app for_each]. rewrite bind_run, load_module_run.
    destruct (Hpre d) as [m Hm]; [by left|]. rewrite Hm.
    cbn [outcome final printed]. apply IH; [|done].
    intros d' Hd'. apply Hpre. by right.
Qed.

Lemma load_modules_some_failure (mods : list ModuleDescription)
    (md : ModuleDescription) (e : PyException) (s : State) :
  md ∈ mods ->
  get_module (config s) (name md) = inl e ->
  exists e', outcome (for_each mods load_module s) = Raises e'.
Proof.
  revert s. induction mods as [|d mods IH]; intros s Hin Hfail.
  { by apply elem_of_nil in Hin. }
  cbn [for_each]. rewrite bind_run, load_module_run.
  destruct (resolve (config s) (name d)) as [e'|m] eqn:R; [by exists e'|].
  cbn [outcome final printed].
  apply elem_of_cons in Hin as [->|Hin].
  - unfold resolve in R. by rewrite Hfail in R.
  - by apply IH.
Qed.

(** C7: [load_recipe] never writes to the ledger; a name that the factory
    cannot resolve makes it raise -- the factory's own exception when
    every earlier module loads -- and on success, from an empty pool,
    the keys of the pool are exactly the declared names, each bound to
    the module the factory instantiates for it. *)
Theorem load_recipe_registry (recipe : Recipe) (s : State) :
  (errors (final (load_recipe recipe s)) = errors s /\
   global_errors (final (load_recipe recipe s)) = global_errors s) /\
  (forall md e,
     md ∈ modules recipe ->
     get_module (config s) (name md) = inl e ->
     exists e', outcome (load_recipe recipe s) = Raises e') /\
  (forall pre md later e,
     modules recipe = pre ++ md :: later ->
     (forall d, d ∈ pre -> exists m, resolve (config s) (name d) = inr m) ->
     get_module (config s) (name md) = inl e ->
     outcome (load_recipe recipe s) = Raises e) /\
  (outcome (load_recipe recipe s) = Returns tt ->
   module_pool s = ∅ ->
   dom (module_pool (final (load_recipe recipe s)))
   = list_to_set (name <$> modules recipe) /\
   forall md, md ∈ modules recipe ->
     exists m, resolve (config s) (name md) = inr m /\
               module_pool (final (load_recipe recipe s)) !! name md = Some m).
Proof.
  rewrite load_recipe_run.
  pose proof (load_modules_frame (modules recipe) (set_recipe (Some recipe) s))
    as (He & Hg & _).
  split; [done|]. split; [|split].
  - intros md e Hin Hfail.
    by apply (load_modules_some_failure _ md e).
  - intros pre md later e -> Hpre Hfail.
    by apply load_modules_first_failure.
  - intros Hok Hempty. split.
    + apply set_eq. intros k. rewrite elem_of_dom, elem_of_list_to_set.
      destruct (load_modules_ok _ _ k Hok) as [Hin Hout].
      destruct (decide (k ∈ name <$> modules recipe)) as [Hk|Hk].
      * destruct (Hin Hk) as (m & _ & ->). by split; eauto.
      * rewrite (Hout Hk). cbn [module_pool set_recipe]. rewrite Hempty.
        rewrite lookup_empty. split; [by intros [? ?]|done].
    + intros md Hmd. destruct (load_modules_ok _ _ (name md) Hok) as [Hin _].
      apply Hin, list_elem_of_fmap. eauto.
Qed.

Lemma check_errors_final (is_global : bool) (s : State) :
  final (check_errors is_global s) = s.
Proof.
  destruct (ledger_split (scanned is_global s))
    as [[msgs E]|(msgs & m & later & E)].
  - by rewrite (check_errors_noncritical _ _ _ E).
  - by rewrite (check_errors_critical _ _ _ _ _ E).
Qed.

(** C2: [cleanup] empties the local list, appends its entries in order
    to the global list, makes the output the input and empties the
    output, whatever the lists held; the ledger as a whole holds the same
    entries before and after (they are moved), and no other method of the
    state takes an entry out of the local list. *)
Theorem cleanup_moves_errors (s : State) :
  (outcome (cleanup s) = Returns tt /\ printed (cleanup s) = []) /\
  errors (final (cleanup s)) = [] /\
  global_errors (final (cleanup s)) = global_errors s ++ errors s /\
  input (final (cleanup s)) = output s /\
  output (final (cleanup s)) = [] /\
  global_errors (final (cleanup s)) ++ errors (final (cleanup s))
  = global_errors s ++ errors s /\
  ((forall error critical,
      errors (final (add_error error critical s)) = errors s ++ [(error, critical)]) /\
   (forall is_global, errors (final (check_errors is_global s)) = errors s) /\
   (forall container, errors (final (store_container container s)) = errors s) /\
   (forall container_class,
      errors (final (get_containers container_class s)) = errors s) /\
   (forall recipe, errors (final (load_recipe recipe s)) = errors s)).
Proof.
  rewrite cleanup_run. cbn [outcome printed final errors global_errors input output].
  repeat split; try done.
  - by rewrite app_nil_r.
  - intros g. by rewrite check_errors_final.
  - intros c. rewrite store_container_run. cbv zeta.
    by destruct (store s !! CONTAINER_TYPE (container_class c)).
  - intros r. rewrite load_recipe_run.
    by destruct (load_modules_frame (modules r) (set_recipe (Some r) s)) as [-> _].
Qed.

(** *** The tasks *)

Lemma try_except_run {A} (body : M A)
    (clauses : list ((PyException -> bool) * (PyException -> M A))) (s : State) :
  try_except body clauses s =
  match outcome (body s) with
  | Raises e =>
      match List.find (fun c => fst c e) clauses with
      | Some c =>
          mkRun (printed (body s) ++ printed (snd c e (final (body s))))
                (final (snd c e (final (body s))))
                (outcome (snd c e (final (body s))))
      | None => body s
      end
  | _ => body s
  end.
Proof. reflexivity. Qed.

(** What the setup task does once its arguments are resolved and its
    module is found. *)
Lemma setup_task_run (cli_args : Args) (md : ModuleDescription) (s : State)
    (new_args : Args) (m : PyModule) :
  import_args_from_dict (args md) cli_args (config s) = inr new_args ->
  module_pool s !! name md = Some m ->
  _setup_module_thread cli_args md s =
  let r := setup m new_args s in
  let finish := fun s' =>
    final (cleanup (final (events_setitem (name md) Event s'))) in
  match outcome r with
  | Returns _ => mkRun (printed r) (finish (final r)) (Returns tt)
  | Raises e =>
      if isinstance_Exception e
      then mkRun (printed r)
             (finish (final (add_error (unknown_error e) true (final r))))
             (Returns tt)
      else mkRun (printed r) (final r) (Raises e)
  | Blocks => mkRun (printed r) (final r) Blocks
  end.
Proof.
  intros Hargs Hm. unfold _setup_module_thread.
  erewrite bind_quiet by reflexivity. rewrite Hargs.
  erewrite bind_quiet by reflexivity.
  erewrite bind_quiet by (unfold module_pool_getitem; by rewrite Hm).
  rewrite bind_run, try_except_run.
  destruct (outcome (setup m new_args s)) as [[]|e|] eqn:E.
  - rewrite E. cbn. by rewrite app_nil_r.
  - cbn [List.find fst snd]. destruct (isinstance_Exception e) eqn:Ei.
    + cbn. by rewrite !app_nil_r.
    + by rewrite E.
  - by rewrite E.
Qed.

(** C3 (amended): when [setup] was invoked and returned, or raised an
    instance of [Exception], the setup task returns and leaves the
    module's event created and unset: the event is set by the run task
    only. *)
Theorem setup_task_creates_unset_event (cli_args : Args) (md : ModuleDescription)
    (s : State) (new_args : Args) (m : PyModule) :
  import_args_from_dict (args md) cli_args (config s) = inr new_args ->
  module_pool s !! name md = Some m ->
  (outcome (setup m new_args s) = Returns tt \/
   exists e, outcome (setup m new_args s) = Raises e /\
             isinstance_Exception e = true) ->
  outcome (_setup_module_thread cli_args md s) = Returns tt /\
  events (final (_setup_module_thread cli_args md s)) !! name md = Some false.
Proof.
  intros Hargs Hm Hsetup. rewrite (setup_task_run _ _ _ _ _ Hargs Hm). cbv zeta.
  destruct Hsetup as [-> | (e & -> & ->)]; cbn [outcome final];
    rewrite cleanup_run; cbn [final events events_setitem modify set_events];
    by rewrite lookup_insert_eq.
Qed.

(** C6 (amended): an exception raised by [setup] that is an instance of
    [Exception] is caught in the task and recorded as a critical entry
    with the generic message, and the task returns; an exception outside
    [Exception] ([SystemExit], [KeyboardInterrupt], [GeneratorExit])
    leaves the task, and nothing is recorded for it. *)
Theorem setup_task_catches_Exception (cli_args : Args) (md : ModuleDescription)
    (s : State) (new_args : Args) (m : PyModule) (e : PyException) :
  import_args_from_dict (args md) cli_args (config s) = inr new_args ->
  module_pool s !! name md = Some m ->
  outcome (setup m new_args s) = Raises e ->
  (isinstance_Exception e = true ->
     outcome (_setup_module_thread cli_args md s) = Returns tt /\
     errors (final (_setup_module_thread cli_args md s)) = [] /\
     global_errors (final (_setup_module_thread cli_args md s))
     = global_errors (final (setup m new_args s))
       ++ errors (final (setup m new_args s))
       ++ [("An unknown error occurred: " +:+ str e, true)]) /\
  (isinstance_Exception e = false ->
     outcome (_setup_module_thread cli_args md s) = Raises e /\
     final (_setup_module_thread cli_args md s) = final (setup m new_args s)).
Proof.
  intros Hargs Hm He. rewrite (setup_task_run _ _ _ _ _ Hargs Hm). cbv zeta.
  rewrite He. split; intros ->; [|done].
  cbn [outcome final]. rewrite cleanup_run.
  cbn [final errors global_errors events_setitem add_error modify set_events
       set_errors].
  done.
Qed.

Lemma waits_pass (blockers : list string) (s : State) :
  (forall b, b ∈ blockers -> events s !! b = Some true) ->
  for_each blockers (fun blocker => event ← events_getitem blocker ; wait event) s
  = mkRun [] s (Returns tt).
Proof.
  induction blockers as [|b bs IH]; intros Hset; [done|].
  cbn [for_each].
  erewrite bind_quiet; [apply IH; intros b' ?; apply Hset; by right|].
  erewrite bind_quiet by (unfold events_getitem; rewrite (Hset b) by (by left); done).
  done.
Qed.

(** The end of the run task: notice, own event, [cleanup]. *)
Lemma run_task_finish (module_name : string) (s : State) :
  is_Some (events s !! module_name) ->
  (print (completion_notice module_name) ;; events_set module_name ;; cleanup) s
  = mkRun [completion_notice module_name]
      (final (cleanup (set_events (<[module_name := true]> (events s)) s)))
      (Returns tt).
Proof.
  intros [ev Hev]. rewrite bind_run. cbn [print outcome final printed].
  rewrite bind_run. unfold events_set. rewrite bind_run.
  unfold events_getitem. rewrite Hev. done.
Qed.

Lemma run_task_run (md : ModuleDescription) (s : State) (m : PyModule) :
  (forall b, b ∈ wants md -> events s !! b = Some true) ->
  module_pool s !! name md = Some m ->
  _run_module_thread md s =
  let r := process m s in
  let finish := fun s' =>
    let r' := (print (completion_notice (name md)) ;;
               events_set (name md) ;; cleanup) s' in
    mkRun (printed r ++ printed r') (final r') (outcome r') in
  match outcome r with
  | Returns _ => finish (final r)
  | Raises e =>
      if isinstance_DFTimewolfError e
      then finish (final (add_error (message e) true (final r)))
      else if isinstance_Exception e
      then finish (final (add_error (unknown_error e) true (final r)))
      else mkRun (printed r) (final r) (Raises e)
  | Blocks => mkRun (printed r) (final r) Blocks
  end.
Proof.
  intros Hwaits Hm. unfold _run_module_thread.
  erewrite bind_quiet by (by apply waits_pass).
  erewrite bind_quiet by (unfold module_pool_getitem; by rewrite Hm).
  rewrite bind_run, try_except_run. cbv zeta.
  destruct (outcome (process m s)) as [[]|e|] eqn:E.
  - by rewrite E.
  - cbn [List.find fst snd]. destruct (isinstance_DFTimewolfError e) eqn:Ed.
    + cbn [outcome final printed add_error modify]. by rewrite app_nil_r.
    + destruct (isinstance_Exception e) eqn:Ei.
      * cbn [outcome final printed add_error modify]. by rewrite app_nil_r.
      * by rewrite E.
  - by rewrite E.
Qed.

Lemma run_task_finish_missing (module_name : string) (s : State) :
  events s !! module_name = None ->
  (print (completion_notice module_name) ;; events_set module_name ;; cleanup) s
  = mkRun [completion_notice module_name] s (Raises (KeyError module_name)).
Proof.
  intros Hev. rewrite bind_run. cbn [print outcome final printed].
  rewrite bind_run. unfold events_set. rewrite bind_run.
  unfold events_getitem. rewrite Hev. done.
Qed.

(** Reads the fields of a state built by the setters. *)
Local Ltac settle_fields :=
  cbn [outcome final printed errors global_errors input output events
       add_error modify set_events set_errors message].

(** C5 (amended): for a module whose [process] is invoked (its blockers
    are set and it is in the pool): when [process] raises
    [DFTimewolfError] the run task records a critical entry with that
    error's message; when it raises another instance of [Exception] it
    records a critical entry with the generic message; in these two cases
    and when [process] returns, the task prints the completion notice,
    and, when the module's own event exists, it sets that event and does
    [cleanup].  An exception outside [Exception] is not caught: it leaves
    the task, which prints no notice, sets no event and does no
    [cleanup]. *)
Theorem run_task_records_and_signals (md : ModuleDescription) (s : State)
    (m : PyModule) :
  (forall b, b ∈ wants md -> events s !! b = Some true) ->
  module_pool s !! name md = Some m ->
  ((outcome (process m s) = Returns tt ->
      run_task_records (name md) (process m s) (_run_module_thread md s) []) /\
   (forall msg,
      outcome (process m s) = Raises (DFTimewolfError msg) ->
      run_task_records (name md) (process m s) (_run_module_thread md s)
        [(msg, true)]) /\
   (forall e,
      outcome (process m s) = Raises e ->
      isinstance_DFTimewolfError e = false ->
      isinstance_Exception e = true ->
      run_task_records (name md) (process m s) (_run_module_thread md s)
        [("An unknown error occurred: " +:+ str e, true)])) /\
  (is_Some (events (final (process m s)) !! name md) ->
   (outcome (process m s) = Returns tt ->
      run_task_completes (name md) (process m s) (_run_module_thread md s) []) /\
   (forall msg,
      outcome (process m s) = Raises (DFTimewolfError msg) ->
      run_task_completes (name md) (process m s) (_run_module_thread md s)
        [(msg, true)]) /\
   (forall e,
      outcome (process m s) = Raises e ->
      isinstance_DFTimewolfError e = false ->
      isinstance_Exception e = true ->
      run_task_completes (name md) (process m s) (_run_module_thread md s)
        [("An unknown error occurred: " +:+ str e, true)])) /\
  (forall e,
     outcome (process m s) = Raises e ->
     isinstance_Exception e = false ->
     _run_module_thread md s
     = mkRun (printed (process m s)) (final (process m s)) (Raises e)).
Proof.
  intros Hwaits Hm. rewrite (run_task_run _ _ _ Hwaits Hm). cbv zeta.
  unfold run_task_records, run_task_completes.
  split; [split; [|split]|split; [intros Hev; split; [|split]|]].
  - intros ->. destruct (events (final (process m s)) !! name md) eqn:Hev.
    + rewrite run_task_finish by eauto. rewrite cleanup_run. settle_fields.
      by rewrite !app_nil_r.
    + rewrite run_task_finish_missing by done. settle_fields.
      by rewrite !app_nil_r.
  - intros msg ->. cbn [isinstance_DFTimewolfError].
    destruct (events (final (process m s)) !! name md) eqn:Hev.
    + rewrite run_task_finish by (settle_fields; eauto).
      rewrite cleanup_run. settle_fields. by rewrite !app_nil_r.
    + rewrite run_task_finish_missing by done. settle_fields.
      done.
  - intros e -> -> ->.
    destruct (events (final (process m s)) !! name md) eqn:Hev.
    + rewrite run_task_finish by (settle_fields; eauto).
      rewrite cleanup_run. settle_fields. by rewrite !app_nil_r.
    + rewrite run_task_finish_missing by done. settle_fields.
      done.
  - intros ->. rewrite run_task_finish by done.
    rewrite cleanup_run. settle_fields.
    rewrite lookup_insert_eq, !app_nil_r. done.
  - intros msg ->. cbn [isinstance_DFTimewolfError].
    rewrite run_task_finish by done.
    rewrite cleanup_run. settle_fields.
    rewrite lookup_insert_eq. done.
  - intros e -> -> ->. rewrite run_task_finish by done.
    rewrite cleanup_run. settle_fields.
    rewrite lookup_insert_eq. done.
  - intros e -> He. by destruct e.
Qed.

(** *** Further properties *)

Lemma waits_block (pre later : list string) (b : string) (s : State) :
  (forall b', b' ∈ pre -> events s !! b' = Some true) ->
  events s !! b = Some false ->
  for_each (pre ++ b :: later)
    (fun blocker => event ← events_getitem blocker ; wait event) s
  = mkRun [] s Blocks.
Proof.
  induction pre as [|b0 pre IH]; intros Hset Hb; cbn [app for_each].
  - rewrite bind_run.
    erewrite bind_quiet by (unfold events_getitem; by rewrite Hb). done.
  - erewrite bind_quiet; [apply IH; [intros b' ?; apply Hset; by right|done]|].
    erewrite bind_quiet by (unfold events_getitem; rewrite (Hset b0) by (by left); done).
    done.
Qed.

(** Dependency gating: a run task whose first unset blocker is [b] is
    suspended before [process] is invoked; it prints nothing and leaves
    the state as it found it. *)
Theorem run_task_blocks_on_unset_blocker (md : ModuleDescription) (s : State)
    (pre later : list string) (b : string) :
  wants md = pre ++ b :: later ->
  (forall b', b' ∈ pre -> events s !! b' = Some true) ->
  events s !! b = Some false ->
  _run_module_thread md s = mkRun [] s Blocks.
Proof.
  intros Hw Hpre Hb. unfold _run_module_thread.
  rewrite bind_run, Hw, (waits_block _ _ _ _ Hpre Hb). done.
Qed.


(** The references kept in the store never dangle: the fresh state has
    none, and [store_container] and [get_containers] keep them allocated. *)
Theorem store_references_allocated :
  (forall cfg, store_allocated (init cfg)) /\
  (forall s container,
     store_allocated s -> store_allocated (final (store_container container s))) /\
  (forall s container_class,
     store_allocated s ->
     store_allocated (final (get_containers container_class s))).
Proof.
  unfold store_allocated. split; [|split].
  - intros cfg tag l. cbn. by rewrite lookup_empty.
  - intros s c Hwf tag l. rewrite store_container_run. cbv zeta.
    destruct (store s !! CONTAINER_TYPE (container_class c)) as [l'|] eqn:E;
      cbn [final store heap set_heap set_store].
    + intros Hl. apply Hwf in Hl as Hal. apply lookup_alter_is_Some.
      rewrite lookup_insert_ne; [done|].
      symmetry. by apply fresh_loc_not_allocated.
    + intros Hl. apply lookup_alter_is_Some.
      destruct (decide (CONTAINER_TYPE (container_class c) = tag)) as [<-|Hne].
      * rewrite lookup_insert_eq in Hl. injection Hl as <-.
        by rewrite lookup_insert_eq.
      * rewrite lookup_insert_ne in Hl by done. apply Hwf in Hl as Hal.
        rewrite lookup_insert_ne; [done|].
        symmetry. by apply fresh_loc_not_allocated.
  - intros s cls Hwf tag l. rewrite get_containers_run.
    cbn [final store heap set_heap]. intros Hl. apply Hwf in Hl as Hal.
    rewrite lookup_insert_ne; [done|].
    symmetry. by apply fresh_loc_not_allocated.
Qed.

(** *** The container store as a whole *)

Lemma store_container_keeps_allocated (container : AttributeContainer) (s : State) :
  store_allocated s -> store_allocated (final (store_container container s)).
Proof.
  unfold store_allocated. intros Hwf tag l. rewrite store_container_run. cbv zeta.
  destruct (store s !! CONTAINER_TYPE (container_class container)) as [l'|] eqn:E;
    cbn [final store heap set_heap set_store]; intros Hl;
    apply lookup_alter_is_Some.
  - rewrite lookup_insert_ne; [by eapply Hwf|].
    symmetry. apply fresh_loc_not_allocated. by eapply Hwf.
  - destruct (decide (CONTAINER_TYPE (container_class container) = tag)) as [<-|Hne].
    + rewrite lookup_insert_eq in Hl. injection Hl as <-. by rewrite lookup_insert_eq.
    + rewrite lookup_insert_ne in Hl by done.
      rewrite lookup_insert_ne; [by eapply Hwf|].
      symmetry. apply fresh_loc_not_allocated. by eapply Hwf.
Qed.

Lemma store_container_keeps_separate (container : AttributeContainer) (s : State) :
  store_separate s -> store_separate (final (store_container container s)).
Proof.
  unfold store_separate. intros Hsep tag1 tag2 l. rewrite store_container_run.
  cbv zeta.
  destruct (store s !! CONTAINER_TYPE (container_class container)) as [l'|] eqn:E;
    cbn [final store set_heap set_store]; [apply Hsep|].
  destruct (decide (CONTAINER_TYPE (container_class container) = tag1)) as [<-|N1];
    destruct (decide (CONTAINER_TYPE (container_class container) = tag2)) as [<-|N2];
    rewrite ?lookup_insert_eq, ?lookup_insert_ne by done; try done.
  - intros [= <-] H2. by apply fresh_loc_not_stored in H2.
  - intros H1 [= <-]. by apply fresh_loc_not_stored in H1.
  - apply Hsep.
Qed.

(** Storing under one tag leaves the sequence of every other tag alone. *)
Lemma store_container_other_tag (container : AttributeContainer) (s : State)
    (tag : string) :
  store_separate s ->
  type_of container <> tag ->
  stored tag (final (store_container container s)) = stored tag s.
Proof.
  unfold type_of, stored. intros Hsep Hne. rewrite store_container_run. cbv zeta.
  destruct (store s !! CONTAINER_TYPE (container_class container)) as [l|] eqn:E;
    cbn [final store heap set_heap set_store].
  - destruct (store s !! tag) as [l'|] eqn:E'; [|done]. cbn.
    rewrite lookup_alter_ne by (intros ->; apply Hne; by eapply Hsep).
    by rewrite lookup_insert_ne by (symmetry; by eapply fresh_loc_not_stored).
  - rewrite lookup_insert_ne by done.
    destruct (store s !! tag) as [l'|] eqn:E'; [|done]. cbn.
    assert (l' <> fresh_loc s) by (by eapply fresh_loc_not_stored).
    by rewrite lookup_alter_ne, lookup_insert_ne.
Qed.

Lemma store_container_contents (container : AttributeContainer) (s : State)
    (tag : string) :
  store_allocated s -> store_separate s ->
  contents tag (final (store_container container s))
  = contents tag s ++ of_type tag [container].
Proof.
  intros Hwf Hsep. unfold contents, of_type.
  destruct (decide (type_of container = tag)) as [<-|Hne].
  - rewrite filter_cons_True, filter_nil by done. unfold type_of.
    destruct (stored (CONTAINER_TYPE (container_class container)) s) as [old|] eqn:Es.
    + by rewrite (store_container_present _ _ _ Es).
    + rewrite store_container_absent; [done|].
      unfold stored in Es.
      destruct (store s !! CONTAINER_TYPE (container_class container)) as [l|] eqn:E;
        [|done].
      cbn in Es. destruct (Hwf _ _ E) as [xs Hxs]. congruence.
  - rewrite filter_cons_False, filter_nil, app_nil_r by done.
    by rewrite store_container_other_tag.
Qed.

Lemma store_each_contents (containers : list AttributeContainer) (s : State)
    (tag : string) :
  store_allocated s -> store_separate s ->
  contents tag (final (store_each containers s))
  = contents tag s ++ of_type tag containers /\
  store_allocated (final (store_each containers s)) /\
  store_separate (final (store_each containers s)).
Proof.
  revert s. induction containers as [|c cs IH]; intros s Hwf Hsep.
  { cbn. by rewrite app_nil_r. }
  unfold store_each in *.
  rewrite for_each_cons_run by apply store_container_returns. cbn [final].
  destruct (IH (final (store_container c s)))
    as (IHc & IHa & IHs);
    [by apply store_container_keeps_allocated
    |by apply store_container_keeps_separate|].
  split; [|done].
  rewrite IHc, store_container_contents by done.
  unfold of_type. rewrite <- app_assoc, <- filter_app. done.
Qed.

Lemma fetch_contents (container_class : ContainerClass) (s : State) :
  store_allocated s ->
  fetch container_class s = Some (contents (CONTAINER_TYPE container_class) s).
Proof.
  intros Hwf. unfold contents.
  destruct (stored (CONTAINER_TYPE container_class) s) as [xs|] eqn:Es.
  - by apply fetch_present.
  - apply fetch_absent. unfold stored in Es.
    destruct (store s !! CONTAINER_TYPE container_class) as [l|] eqn:E; [|done].
    cbn in Es. destruct (Hwf _ _ E) as [xs Hxs]. congruence.
Qed.

Lemma init_store_invariants (cfg : Config) :
  store_allocated (init cfg) /\ store_separate (init cfg).
Proof.
  split; intros ? ?; cbn; intros; by rewrite ?lookup_empty in *.
Qed.

(** Grouping by type: after any containers were stored, fetching a tag
    yields what the tag held before followed by exactly the stored
    containers of that type, in the order they were stored; from a fresh
    state, exactly those containers. *)
Theorem store_each_groups_by_type (containers : list AttributeContainer)
    (T : ContainerClass) :
  (forall cfg,
     fetch T (final (store_each containers (init cfg)))
     = Some (of_type (CONTAINER_TYPE T) containers)) /\
  (forall s,
     store_allocated s -> store_separate s ->
     fetch T (final (store_each containers s))
     = Some (contents (CONTAINER_TYPE T) s ++ of_type (CONTAINER_TYPE T) containers)).
Proof.
  assert (forall s, store_allocated s -> store_separate s ->
    fetch T (final (store_each containers s))
    = Some (contents (CONTAINER_TYPE T) s ++ of_type (CONTAINER_TYPE T) containers))
    as Hgen.
  { intros s Hwf Hsep.
    destruct (store_each_contents containers s (CONTAINER_TYPE T) Hwf Hsep)
      as (Hc & Ha & _).
    by rewrite fetch_contents, Hc. }
  split; [|done].
  intros cfg. destruct (init_store_invariants cfg) as [Hwf Hsep].
  by rewrite Hgen.
Qed.

(** Tags are kept apart: no list object is kept under two tags (in the
    fresh state, and after every [store_container] and [get_containers]),
    so that storing a container changes nothing under any other tag and
    adds at most its own tag to the keys. *)
Theorem store_container_keeps_tags_apart (container : AttributeContainer)
    (s : State) :
  (forall cfg, store_separate (init cfg)) /\
  (store_separate s ->
     store_separate (final (store_container container s)) /\
     (forall container_class,
        store_separate (final (get_containers container_class s))) /\
     (forall tag, type_of container <> tag ->
        stored tag (final (store_container container s)) = stored tag s)) /\
  dom (store (final (store_container container s)))
  = {[type_of container]} ∪ dom (store s).
Proof.
  split; [intros cfg; apply init_store_invariants|]. split.
  - intros Hsep. split; [by apply store_container_keeps_separate|]. split.
    + intros cls. by rewrite get_containers_run.
    + intros tag Hne. by apply store_container_other_tag.
  - unfold type_of. rewrite store_container_run. cbv zeta.
    destruct (store s !! CONTAINER_TYPE (container_class container)) as [l|] eqn:E;
      cbn [final store set_heap set_store].
    + apply elem_of_dom_2 in E. apply set_eq. intros k.
      rewrite elem_of_union, elem_of_singleton.
      split; [by right|]. by intros [->|?].
    + by rewrite dom_insert_L.
Qed.

(** *** The ledger as a whole *)

Lemma add_error_run (error : string) (critical : bool) (s : State) :
  add_error error critical s
  = mkRun [] (set_errors (errors s ++ [(error, critical)]) s) (Returns tt).
Proof. reflexivity. Qed.

(** [add_error] only appends: after any number of calls the local list is
    what it was, followed by the added entries in call order; the global
    list is not touched, nothing is printed and nothing is raised, also
    for a critical entry. *)
Theorem add_errors_append_only (entries : list ErrorEntry) (s : State) :
  outcome (add_errors entries s) = Returns tt /\
  printed (add_errors entries s) = [] /\
  errors (final (add_errors entries s)) = errors s ++ entries /\
  global_errors (final (add_errors entries s)) = global_errors s.
Proof.
  revert s. induction entries as [|[m c] entries IH]; intros s.
  { cbn. by rewrite app_nil_r. }
  unfold add_errors in *. rewrite for_each_cons_run by done.
  cbn [fst snd outcome printed final]. rewrite add_error_run.
  cbn [printed final app].
  destruct (IH (set_errors (errors s ++ [(m, c)]) s)) as (-> & -> & -> & ->).
  cbn [errors global_errors set_errors]. by rewrite <- app_assoc.
Qed.

Lemma check_errors_same_list (is_global is_global' : bool) (s s' : State) :
  scanned is_global s = scanned is_global' s' ->
  printed (check_errors is_global s) = printed (check_errors is_global' s') /\
  outcome (check_errors is_global s) = outcome (check_errors is_global' s').
Proof.
  intros E.
  destruct (ledger_split (scanned is_global s))
    as [[msgs E1]|(msgs & m & later & E1)].
  - rewrite (check_errors_noncritical _ _ _ E1).
    rewrite E in E1. by rewrite (check_errors_noncritical _ _ _ E1).
  - rewrite (check_errors_critical _ _ _ _ _ E1).
    rewrite E in E1. by rewrite (check_errors_critical _ _ _ _ _ E1).
Qed.

(** [check_errors] reads the one list it is asked to scan.  A critical
    entry that [add_error] has put on the local list makes the local check
    end the process at once, but is not seen by the global check until
    [cleanup] has moved it: before, the global check prints and ends as
    if the entry were not there; after, it ends the process. *)
Theorem critical_error_seen_after_cleanup (s : State) (error : string) :
  aborts (check_errors false (final (add_error error true s))) = true /\
  (printed (check_errors true (final (add_error error true s)))
   = printed (check_errors true s) /\
   outcome (check_errors true (final (add_error error true s)))
   = outcome (check_errors true s)) /\
  aborts (check_errors true (final (cleanup (final (add_error error true s)))))
  = true.
Proof.
  split; [|split].
  - apply check_errors_aborts_iff. exists error. rewrite add_error_run.
    cbn [final scanned errors set_errors]. apply elem_of_app. right. by left.
  - by apply check_errors_same_list.
  - apply check_errors_aborts_iff. exists error.
    rewrite cleanup_run, add_error_run.
    cbn [final scanned errors global_errors set_errors].
    rewrite !elem_of_app. right. right. by left.
Qed.

(** *** The module registry as a whole *)

Lemma for_each_app_returns {A} (l1 l2 : list A) (body : A -> M unit) (s : State) :
  outcome (for_each l1 body s) = Returns tt ->
  for_each (l1 ++ l2) body s =
  mkRun (printed (for_each l1 body s)
           ++ printed (for_each l2 body (final (for_each l1 body s))))
        (final (for_each l2 body (final (for_each l1 body s))))
        (outcome (for_each l2 body (final (for_each l1 body s)))).
Proof.
  revert s. induction l1 as [|x l1 IH]; intros s.
  { intros _. cbn. by rewrite run_eta. }
  cbn [app for_each]. rewrite !bind_run.
  destruct (outcome (body x s)) as [[]|e|] eqn:E; [|done..].
  cbn [outcome final printed]. intros Hok. rewrite (IH _ Hok).
  cbn [outcome final printed]. by rewrite app_assoc.
Qed.

Lemma for_each_cons {A} (x : A) (l : list A) (body : A -> M unit) :
  for_each (x :: l) body = (body x ;; for_each l body).
Proof. reflexivity. Qed.

Lemma load_modules_all_ok (mods : list ModuleDescription) (s : State) :
  (forall d, d ∈ mods -> exists m, resolve (config s) (name d) = inr m) ->
  outcome (for_each mods load_module s) = Returns tt.
Proof.
  revert s. induction mods as [|d mods IH]; intros s Hall; [done|].
  cbn [for_each]. rewrite bind_run, load_module_run.
  destruct (Hall d) as [m Hm]; [by left|]. rewrite Hm.
  cbn [outcome final printed]. apply IH.
  intros d' Hd'. apply Hall. by right.
Qed.

Lemma load_modules_rest (mods : list ModuleDescription) (s : State) :
  let s' := final (for_each mods load_module s) in
  store s' = store s /\ heap s' = heap s /\ events s' = events s /\
  input s' = input s /\ output s' = output s.
Proof.
  revert s. induction mods as [|md mods IH]; intros s; [done|].
  cbn [for_each]. rewrite bind_run, load_module_run.
  destruct (resolve (config s) (name md)) as [e|m]; [done|].
  cbn [outcome final printed].
  destruct (IH (set_module_pool (<[name md:=m]> (module_pool s)) s))
    as (? & ? & ? & ? & ?). done.
Qed.

(** No rollback: when the factory fails on a descriptor -- resolving the
    name or instantiating the class -- [load_recipe] raises the factory's
    exception with the recipe already recorded and the modules declared
    before the failing one already in the pool; every other name keeps
    what it was bound to. *)
Theorem load_recipe_failure_keeps_earlier_modules (rcp : Recipe) (s : State)
    (pre later : list ModuleDescription) (md : ModuleDescription)
    (e : PyException) :
  modules rcp = pre ++ md :: later ->
  (forall d, d ∈ pre -> exists m, resolve (config s) (name d) = inr m) ->
  resolve (config s) (name md) = inl e ->
  outcome (load_recipe rcp s) = Raises e /\
  recipe (final (load_recipe rcp s)) = Some rcp /\
  (forall k,
     (k ∈ name <$> pre ->
        exists m, resolve (config s) k = inr m /\
                  module_pool (final (load_recipe rcp s)) !! k = Some m) /\
     (k ∉ name <$> pre ->
        module_pool (final (load_recipe rcp s)) !! k = module_pool s !! k)).
Proof.
  intros Hmods Hpre Hfail. rewrite load_recipe_run, Hmods.
  pose proof (load_modules_all_ok pre (set_recipe (Some rcp) s) Hpre) as Hok.
  rewrite (for_each_app_returns _ _ _ _ Hok). cbn [outcome final printed].
  pose proof (load_modules_frame pre (set_recipe (Some rcp) s))
    as (_ & _ & Hcfg & Hrec & _).
  cbn [config set_recipe recipe] in Hcfg, Hrec.
  cbn [for_each]. rewrite bind_run, load_module_run, Hcfg, Hfail. cbn [outcome final printed].
  split; [done|]. split; [by rewrite Hrec|].
  intros k. apply (load_modules_ok pre (set_recipe (Some rcp) s) k Hok).
Qed.

(** [load_recipe] adds to the pool and never clears it: on success every
    declared name is bound to the module the factory instantiates for it
    (replacing an earlier binding of that name), every other name keeps
    its module, the keys are the old keys and the declared names, the
    recipe is recorded, and store, events and staging buffers are as
    before. *)
Theorem load_recipe_merges_into_pool (rcp : Recipe) (s : State) :
  outcome (load_recipe rcp s) = Returns tt ->
  (forall k,
     (k ∈ name <$> modules rcp ->
        exists m, resolve (config s) k = inr m /\
                  module_pool (final (load_recipe rcp s)) !! k = Some m) /\
     (k ∉ name <$> modules rcp ->
        module_pool (final (load_recipe rcp s)) !! k = module_pool s !! k)) /\
  dom (module_pool (final (load_recipe rcp s)))
  = dom (module_pool s) ∪ list_to_set (name <$> modules rcp) /\
  recipe (final (load_recipe rcp s)) = Some rcp /\
  store (final (load_recipe rcp s)) = store s /\
  events (final (load_recipe rcp s)) = events s /\
  input (final (load_recipe rcp s)) = input s /\
  output (final (load_recipe rcp s)) = output s.
Proof.
  rewrite load_recipe_run. intros Hok.
  pose proof (load_modules_frame (modules rcp) (set_recipe (Some rcp) s))
    as (_ & _ & _ & Hrec & _).
  pose proof (load_modules_rest (modules rcp) (set_recipe (Some rcp) s))
    as (Hst & _ & Hev & Hin & Hout).
  split; [|split; [|done]].
  - intros k. apply (load_modules_ok _ (set_recipe (Some rcp) s) k Hok).
  - apply set_eq. intros k.
    rewrite elem_of_union, !elem_of_dom, elem_of_list_to_set.
    destruct (load_modules_ok _ _ k Hok) as [Hin' Hout'].
    destruct (decide (k ∈ name <$> modules rcp)) as [Hk|Hk].
    + destruct (Hin' Hk) as (m & _ & ->). split; [by right|eauto].
    + rewrite (Hout' Hk). cbn [module_pool set_recipe].
      split; [by left|]. by intros [?|?].
Qed.

(** *** The tasks: failures outside the [try] and frames *)

(** What goes wrong in the setup task before [setup] is called is not
    caught: a failure of the argument resolution, or a module missing from
    the pool ([KeyError]), leaves the task at once; nothing is printed or
    recorded, no event is created and [cleanup] is not run. *)
Theorem setup_task_fails_before_setup (cli_args : Args) (md : ModuleDescription)
    (s : State) :
  (forall e,
     import_args_from_dict (args md) cli_args (config s) = inl e ->
     _setup_module_thread cli_args md s = mkRun [] s (Raises e)) /\
  (forall new_args,
     import_args_from_dict (args md) cli_args (config s) = inr new_args ->
     module_pool s !! name md = None ->
     _setup_module_thread cli_args md s = mkRun [] s (Raises (KeyError (name md)))).
Proof.
  split.
  - intros e He. unfold _setup_module_thread.
    erewrite bind_quiet by reflexivity. rewrite He. done.
  - intros new_args Hargs Hm. unfold _setup_module_thread.
    erewrite bind_quiet by reflexivity. rewrite Hargs.
    erewrite bind_quiet by reflexivity.
    rewrite bind_run. unfold module_pool_getitem. by rewrite Hm.
Qed.

Lemma waits_missing (pre later : list string) (b : string) (s : State) :
  (forall b', b' ∈ pre -> events s !! b' = Some true) ->
  events s !! b = None ->
  for_each (pre ++ b :: later)
    (fun blocker => event ← events_getitem blocker ; wait event) s
  = mkRun [] s (Raises (KeyError b)).
Proof.
  induction pre as [|b0 pre IH]; intros Hset Hb; cbn [app for_each].
  - rewrite !bind_run. unfold events_getitem. by rewrite Hb.
  - erewrite bind_quiet; [apply IH; [intros b' ?; apply Hset; by right|done]|].
    erewrite bind_quiet by (unfold events_getitem; rewrite (Hset b0) by (by left); done).
    done.
Qed.

(** What goes wrong in the run task before [process] is called is not
    caught either: a blocker that has no event ([KeyError], once the
    blockers before it are set), or a module missing from the pool, ends
    the task with the state as it was: no notice, own event not set. *)
Theorem run_task_fails_before_process (md : ModuleDescription) (s : State) :
  (forall pre b later,
     wants md = pre ++ b :: later ->
     (forall b', b' ∈ pre -> events s !! b' = Some true) ->
     events s !! b = None ->
     _run_module_thread md s = mkRun [] s (Raises (KeyError b))) /\
  ((forall b, b ∈ wants md -> events s !! b = Some true) ->
   module_pool s !! name md = None ->
   _run_module_thread md s = mkRun [] s (Raises (KeyError (name md)))).
Proof.
  split.
  - intros pre b later Hw Hpre Hb. unfold _run_module_thread.
    rewrite bind_run, Hw, (waits_missing _ _ _ _ Hpre Hb). done.
  - intros Hwaits Hm. unfold _run_module_thread.
    erewrite bind_quiet by (by apply waits_pass).
    rewrite bind_run. unfold module_pool_getitem. by rewrite Hm.
Qed.

(** A run task whose own event does not exist (the setup task of the
    module never created it) fails after the notice: [set()] is reached
    through a [KeyError], which leaves the task, and [cleanup] is not run.
    What the handlers recorded stays on the local list: the global list,
    which the check at the end of the phase scans, does not get it. *)
Theorem run_task_without_own_event (md : ModuleDescription) (s : State)
    (m : PyModule) :
  (forall b, b ∈ wants md -> events s !! b = Some true) ->
  module_pool s !! name md = Some m ->
  events (final (process m s)) !! name md = None ->
  (outcome (process m s) = Returns tt \/
   exists e, outcome (process m s) = Raises e /\ isinstance_Exception e = true) ->
  outcome (_run_module_thread md s) = Raises (KeyError (name md)) /\
  printed (_run_module_thread md s)
  = printed (process m s) ++ [completion_notice (name md)] /\
  errors (final (_run_module_thread md s))
  = errors (final (process m s)) ++ recorded_for (outcome (process m s)) /\
  global_errors (final (_run_module_thread md s))
  = global_errors (final (process m s)) /\
  input (final (_run_module_thread md s)) = input (final (process m s)) /\
  output (final (_run_module_thread md s)) = output (final (process m s)) /\
  events (final (_run_module_thread md s)) = events (final (process m s)).
Proof.
  intros Hwaits Hm Hev Hcase. rewrite (run_task_run _ _ _ Hwaits Hm). cbv zeta.
  destruct Hcase as [E | (e & E & Ei)]; rewrite E.
  - rewrite run_task_finish_missing by done. settle_fields.
    by rewrite app_nil_r.
  - cbn [recorded_for]. rewrite Ei.
    destruct (isinstance_DFTimewolfError e);
      rewrite run_task_finish_missing by done; by settle_fields.
Qed.

(** A task keeps to its own event: beyond what [setup] or [process] did
    themselves, the setup task binds the module's name to a new unset
    event and the run task sets the module's event, and neither touches
    any other event, the store, the pool, the configuration or the
    recipe. *)
Theorem tasks_keep_to_own_event (cli_args : Args) (md : ModuleDescription)
    (s : State) (new_args : Args) (m : PyModule) :
  module_pool s !! name md = Some m ->
  (import_args_from_dict (args md) cli_args (config s) = inr new_args ->
   (outcome (setup m new_args s) = Returns tt \/
    exists e, outcome (setup m new_args s) = Raises e /\
              isinstance_Exception e = true) ->
   let r := setup m new_args s in
   let t := _setup_module_thread cli_args md s in
   events (final t) = <[name md := false]> (events (final r)) /\
   store (final t) = store (final r) /\ heap (final t) = heap (final r) /\
   module_pool (final t) = module_pool (final r) /\
   config (final t) = config (final r) /\ recipe (final t) = recipe (final r)) /\
  ((forall b, b ∈ wants md -> events s !! b = Some true) ->
   is_Some (events (final (process m s)) !! name md) ->
   (outcome (process m s) = Returns tt \/
    exists e, outcome (process m s) = Raises e /\
              isinstance_Exception e = true) ->
   let r := process m s in
   let t := _run_module_thread md s in
   events (final t) = <[name md := true]> (events (final r)) /\
   store (final t) = store (final r) /\ heap (final t) = heap (final r) /\
   module_pool (final t) = module_pool (final r) /\
   config (final t) = config (final r) /\ recipe (final t) = recipe (final r)).
Proof.
  intros Hm. split.
  - intros Hargs Hcase. cbv zeta. rewrite (setup_task_run _ _ _ _ _ Hargs Hm).
    cbv zeta. destruct Hcase as [-> | (e & -> & ->)]; by rewrite cleanup_run.
  - intros Hwaits Hev Hcase. cbv zeta. rewrite (run_task_run _ _ _ Hwaits Hm).
    cbv zeta. destruct Hcase as [E | (e & E & Ei)]; rewrite E.
    + rewrite run_task_finish by done. by rewrite cleanup_run.
    + rewrite Ei. destruct (isinstance_DFTimewolfError e);
        rewrite run_task_finish by done; by rewrite cleanup_run.
Qed.

(** *** The phases *)

Context `{Sch : !Scheduler}.

Lemma recipe_modules_run (s : State) (rcp : Recipe) :
  recipe s = Some rcp -> recipe_modules s = mkRun [] s (Returns (modules rcp)).
Proof. intros E. unfold recipe_modules. by rewrite E. Qed.

(** One thread, then the check of the global list. *)
Lemma phase_single (target : M unit) (s : State) :
  schedules_alone ->
  (start_and_join [target] ;; check_errors true) s =
  match outcome (target s) with
  | Blocks => mkRun (printed (target s)) (final (target s)) Blocks
  | _ =>
      mkRun (printed (target s) ++ printed (check_errors true (final (target s))))
            (final (target s))
            (outcome (check_errors true (final (target s))))
  end.
Proof.
  intros [_ Hone]. rewrite bind_run, Hone. unfold in_thread.
  destruct (outcome (target s)) as [[]|e|] eqn:E; rewrite ?E;
    cbn [outcome final printed]; by rewrite ?check_errors_final.
Qed.

Lemma setup_modules_single (cli_args : Args) (s : State) (rcp : Recipe)
    (md : ModuleDescription) :
  recipe s = Some rcp -> modules rcp = [md] ->
  setup_modules cli_args s
  = (start_and_join [_setup_module_thread cli_args md] ;; check_errors true) s.
Proof.
  intros Hr Hm. unfold setup_modules.
  erewrite bind_quiet by (by apply recipe_modules_run). by rewrite Hm.
Qed.

Lemma run_modules_single (s : State) (rcp : Recipe) (md : ModuleDescription) :
  recipe s = Some rcp -> modules rcp = [md] ->
  run_modules s = (start_and_join [_run_module_thread md] ;; check_errors true) s.
Proof.
  intros Hr Hm. unfold run_modules.
  erewrite bind_quiet by (by apply recipe_modules_run). by rewrite Hm.
Qed.

(** Before [load_recipe] there is no recipe to read the modules from:
    both phases raise [TypeError] at once; no thread is started and the
    global list is not checked. *)
Theorem phases_need_a_recipe (cli_args : Args) (s : State) :
  recipe s = None ->
  exists text,
    setup_modules cli_args s = mkRun [] s (Raises (StdException "TypeError" text)) /\
    run_modules s = mkRun [] s (Raises (StdException "TypeError" text)).
Proof.
  intros E. eexists. unfold setup_modules, run_modules.
  rewrite !bind_run. unfold recipe_modules. rewrite E. done.
Qed.

(** With a recipe that declares no module a phase starts no thread and is
    the check of the global list alone. *)
Theorem phases_with_empty_recipe (cli_args : Args) (s : State) (rcp : Recipe) :
  schedules_alone ->
  recipe s = Some rcp -> modules rcp = [] ->
  setup_modules cli_args s = check_errors true s /\
  run_modules s = check_errors true s.
Proof.
  intros [Hnone _] Hr Hm. unfold setup_modules, run_modules.
  split; (erewrite bind_quiet by (by apply recipe_modules_run)); rewrite Hm;
    by erewrite bind_quiet by apply Hnone.
Qed.

(** The setup phase of a recipe with one module whose [setup] raises an
    instance of [Exception]: the phase ends the process; when [setup]
    left the ledger empty it prints, after what [setup] printed, the
    header, the critical line with the generic message and the abort
    notice. *)
Theorem setup_phase_failure_aborts (cli_args : Args) (s : State) (rcp : Recipe)
    (md : ModuleDescription) (new_args : Args) (m : PyModule) (e : PyException) :
  schedules_alone ->
  recipe s = Some rcp -> modules rcp = [md] ->
  import_args_from_dict (args md) cli_args (config s) = inr new_args ->
  module_pool s !! name md = Some m ->
  outcome (setup m new_args s) = Raises e ->
  isinstance_Exception e = true ->
  aborts (setup_modules cli_args s) = true /\
  (errors (final (setup m new_args s)) = [] ->
   global_errors (final (setup m new_args s)) = [] ->
   printed (setup_modules cli_args s)
   = printed (setup m new_args s)
     ++ [header; "CRITICAL:   An unknown error occurred: " +:+ str e; abort_notice] /\
   outcome (setup_modules cli_args s) = Raises (SystemExit (-1))).
Proof.
  intros Halone Hr Hmods Hargs Hm He Hi.
  rewrite (setup_modules_single _ _ _ _ Hr Hmods), phase_single by done.
  rewrite (setup_task_run _ _ _ _ _ Hargs Hm). cbv zeta. rewrite He, Hi.
  cbn [outcome final printed]. rewrite cleanup_run.
  cbn [final events_setitem add_error modify set_events set_errors errors
       global_errors].
  split.
  - unfold aborts. cbn [outcome]. apply check_errors_aborts_iff.
    eexists. unfold scanned. cbn [global_errors].
    rewrite !elem_of_app. right. right. by left.
  - intros -> ->. cbn [app].
    erewrite (check_errors_critical true _ [] (unknown_error e) []) by reflexivity.
    done.
Qed.

(** An exception that leaves the thread does not reach the caller of
    [join].  With one module whose [setup] (or [process]) raises an
    exception outside [Exception], the phase goes on to the check of the
    global list on the state the module left: nothing was recorded for
    the exception, the module's event was not created (not set), and no
    completion notice was printed. *)
Theorem phases_ignore_escaping_exception (cli_args : Args) (s : State)
    (rcp : Recipe) (md : ModuleDescription) (m : PyModule) (e : PyException) :
  schedules_alone ->
  recipe s = Some rcp -> modules rcp = [md] ->
  module_pool s !! name md = Some m ->
  isinstance_Exception e = false ->
  (forall new_args,
     import_args_from_dict (args md) cli_args (config s) = inr new_args ->
     outcome (setup m new_args s) = Raises e ->
     setup_modules cli_args s
     = mkRun (printed (setup m new_args s)
                ++ printed (check_errors true (final (setup m new_args s))))
             (final (setup m new_args s))
             (outcome (check_errors true (final (setup m new_args s))))) /\
  ((forall b, b ∈ wants md -> events s !! b = Some true) ->
   outcome (process m s) = Raises e ->
   run_modules s
   = mkRun (printed (process m s)
              ++ printed (check_errors true (final (process m s))))
           (final (process m s))
           (outcome (check_errors true (final (process m s))))).
Proof.
  intros Halone Hr Hmods Hm Hi. split.
  - intros new_args Hargs He.
    rewrite (setup_modules_single _ _ _ _ Hr Hmods), phase_single by done.
    rewrite (setup_task_run _ _ _ _ _ Hargs Hm). cbv zeta. by rewrite He, Hi.
  - intros Hwaits He.
    rewrite (run_modules_single _ _ _ Hr Hmods), phase_single by done.
    rewrite (run_task_run _ _ _ Hwaits Hm). cbv zeta. rewrite He, Hi.
    by destruct e.
Qed.

(** The run phase of a recipe with one module, when [process] returns or
    raises an instance of [Exception]: the module's event ends set, and
    the phase ends the process exactly when the ledger that [process]
    left, with the entries recorded for its failure, holds a critical
    entry.  For a [DFTimewolfError] on an empty ledger the phase prints,
    after what [process] printed, the completion notice, the header, the
    critical line with the error's message and the abort notice. *)
Theorem run_phase_single_module (s : State) (rcp : Recipe)
    (md : ModuleDescription) (m : PyModule) :
  schedules_alone ->
  recipe s = Some rcp -> modules rcp = [md] ->
  (forall b, b ∈ wants md -> events s !! b = Some true) ->
  module_pool s !! name md = Some m ->
  is_Some (events (final (process m s)) !! name md) ->
  (outcome (process m s) = Returns tt \/
   exists e, outcome (process m s) = Raises e /\ isinstance_Exception e = true) ->
  events (final (run_modules s)) !! name md = Some true /\
  (aborts (run_modules s) = true <->
   exists msg, (msg, true) ∈ global_errors (final (process m s))
                            ++ errors (final (process m s))
                            ++ recorded_for (outcome (process m s))) /\
  (forall msg,
     outcome (process m s) = Raises (DFTimewolfError msg) ->
     errors (final (process m s)) = [] ->
     global_errors (final (process m s)) = [] ->
     printed (run_modules s)
     = printed (process m s)
       ++ [completion_notice (name md); header; "CRITICAL:   " +:+ msg; abort_notice] /\
     outcome (run_modules s) = Raises (SystemExit (-1))).
Proof.
  intros Halone Hr Hmods Hwaits Hm Hev Hcase.
  rewrite (run_modules_single _ _ _ Hr Hmods), phase_single by done.
  assert (exists s',
    _run_module_thread md s
    = mkRun (printed (process m s) ++ [completion_notice (name md)]) s' (Returns tt) /\
    events s' !! name md = Some true /\
    global_errors s' = global_errors (final (process m s))
                       ++ errors (final (process m s))
                       ++ recorded_for (outcome (process m s)))
    as (s' & -> & Hev' & Hg).
  { rewrite (run_task_run _ _ _ Hwaits Hm). cbv zeta.
    destruct Hcase as [E | (e & E & Ei)]; rewrite E.
    - rewrite run_task_finish by done. eexists. split; [reflexivity|].
      rewrite cleanup_run. settle_fields.
      by rewrite lookup_insert_eq, !app_nil_r.
    - cbn [recorded_for]. rewrite Ei.
      destruct (isinstance_DFTimewolfError e);
        rewrite run_task_finish by done; (eexists; split; [reflexivity|]);
        rewrite cleanup_run; settle_fields; by rewrite lookup_insert_eq. }
  cbn [outcome final printed]. split; [done|]. split.
  - unfold aborts at 1. cbn [outcome]. rewrite <- Hg.
    apply (check_errors_aborts_iff true s').
  - intros msg E He0 Hg0. rewrite E, He0, Hg0 in Hg. cbn [recorded_for
      isinstance_DFTimewolfError message app] in Hg.
    erewrite (check_errors_critical true s' [] msg []) by exact Hg.
    cbn [printed outcome]. by rewrite <- app_assoc.
Qed.

(** Deadlock: with one module in the recipe, a blocker whose event is
    unset is never set by anyone (a module that wants itself is the
    plainest case): the run phase is suspended for ever, before
    [process] is called, and the global list is never checked. *)
Theorem run_phase_deadlock (s : State) (rcp : Recipe) (md : ModuleDescription)
    (pre later : list string) (b : string) :
  schedules_alone ->
  recipe s = Some rcp -> modules rcp = [md] ->
  wants md = pre ++ b :: later ->
  (forall b', b' ∈ pre -> events s !! b' = Some true) ->
  events s !! b = Some false ->
  run_modules s = mkRun [] s Blocks.
Proof.
  intros Halone Hr Hmods Hw Hpre Hb.
  rewrite (run_modules_single _ _ _ Hr Hmods), phase_single by done.
  unfold _run_module_thread.
  rewrite bind_run, Hw, (waits_block _ _ _ _ Hpre Hb). done.
Qed.

(** The setup phase of a recipe with one module whose [setup] returns:
    the module's event ends created and unset, and the phase ends the
    process exactly when the ledger that [setup] left holds a critical
    entry (one that was there before, or that [setup] added itself). *)
Theorem setup_phase_single_module (cli_args : Args) (s : State) (rcp : Recipe)
    (md : ModuleDescription) (new_args : Args) (m : PyModule) :
  schedules_alone ->
  recipe s = Some rcp -> modules rcp = [md] ->
  import_args_from_dict (args md) cli_args (config s) = inr new_args ->
  module_pool s !! name md = Some m ->
  outcome (setup m new_args s) = Returns tt ->
  events (final (setup_modules cli_args s)) !! name md = Some false /\
  printed (setup_modules cli_args s)
  = printed (setup m new_args s)
    ++ printed (check_errors true (final (setup_modules cli_args s))) /\
  (aborts (setup_modules cli_args s) = true <->
   exists msg, (msg, true) ∈ global_errors (final (setup m new_args s))
                            ++ errors (final (setup m new_args s))).
Proof.
  intros Halone Hr Hmods Hargs Hm He.
  rewrite (setup_modules_single _ _ _ _ Hr Hmods), phase_single by done.
  rewrite (setup_task_run _ _ _ _ _ Hargs Hm). cbv zeta. rewrite He.
  cbn [outcome final printed]. rewrite cleanup_run.
  cbn [final events_setitem modify set_events events global_errors errors].
  split; [by rewrite lookup_insert_eq|]. split; [done|].
  unfold aborts at 1. cbn [outcome].
  apply (check_errors_aborts_iff true).
Qed.

End Properties.

(** ** The model evaluated on the concrete instance *)

Import Demo.

(** C1 at [reported]: the header, the two entries up to the critical
    one, the abort notice, and [SystemExit(-1)]; the entry after the
    critical one is not printed. *)
Lemma check_errors_aborts_at_first_critical_witness :
  printed (check_errors true reported)
  = ["dfTimewolf encountered one or more errors:";
     "  slow disk";
     "CRITICAL:   disk full";
     "Critical error found. Aborting."] /\
  outcome (check_errors true reported) = Raises (SystemExit (-1)) /\
  (aborts (check_errors true reported) = true <->
     exists m, (m, true) ∈ scanned true reported).
Proof.
  destruct (check_errors_aborts_at_first_critical true reported) as (Hiff & Hcrit & _).
  destruct (Hcrit ["slow disk"] "disk full" [("late", false)] eq_refl)
    as (Hp & Ho & _).
  split; [exact Hp|]. split; [exact Ho|exact Hiff].
Defined.

(** C10 at [pending], scanning the empty global list while the local
    list holds a critical entry. *)
Lemma check_errors_empty_silent_witness :
  scanned true pending = [] /\
  check_errors true pending = mkRun [] pending (Returns tt).
Proof.
  split; [reflexivity|]. apply (check_errors_empty_silent true pending).
  reflexivity.
Defined.

(** C3 as stated fails at [loaded]: [A.setup] returns, and after the
    setup task the event of [A] exists but is not set. *)
Lemma setup_task_event_not_set :
  outcome (setup mod_A no_args loaded)
  = Returns tt /\
  outcome (_setup_module_thread no_args (describe "A" []) loaded) = Returns tt /\
  events (final (_setup_module_thread no_args (describe "A" []) loaded)) !! "A"
  = Some false.
Proof. vm_compute. done. Defined.

(** C3 (amended) at [loaded], for module [C], whose [setup] raises a
    [ValueError]. *)
Lemma setup_task_creates_unset_event_witness :
  outcome (_setup_module_thread no_args (describe "C" []) loaded) = Returns tt /\
  events (final (_setup_module_thread no_args (describe "C" []) loaded)) !! "C"
  = Some false.
Proof.
  apply (setup_task_creates_unset_event no_args (describe "C" []) loaded
           no_args mod_C).
  - reflexivity.
  - vm_compute. reflexivity.
  - right. exists (StdException "ValueError" "bad path"). split; reflexivity.
Defined.

(** C4 as stated fails at [s1], where [c0] is already stored under [T]:
    the fetch yields three containers. *)
Lemma store_then_fetch_prior_contents :
  fetch T (final ((store_container c1 ;; store_container c2) s1))
  = Some [c0; c1; c2].
Proof. vm_compute. reflexivity. Defined.

(** C4 (amended) at [s1] and at the fresh state [s0]. *)
Lemma store_then_fetch_appends_witness :
  fetch T (final ((store_container c1 ;; store_container c2) s1))
  = Some ([c0] ++ [c1; c2]) /\
  fetch T (final ((store_container c1 ;; store_container c2) s0))
  = Some [c1; c2] /\
  fetch U s1 = Some [].
Proof.
  destruct (store_then_fetch_appends s1 c1 c2 T eq_refl eq_refl) as (H1 & _ & H3).
  destruct (store_then_fetch_appends s0 c1 c2 T eq_refl eq_refl) as (_ & H2 & _).
  split; [apply H1; vm_compute; reflexivity|].
  split; [apply H2; vm_compute; reflexivity|].
  apply (H3 U s1). vm_compute. reflexivity.
Defined.

(** C5 as stated fails in two ways.  At [ready], [process] of [D]
    raises [KeyboardInterrupt]: the exception leaves the task, nothing is
    recorded or printed, and the event of [D] stays unset.  For [E],
    whose [setup] raises [SystemExit], the setup phase returns without
    an event for [E]; there [process] raises [DFTimewolfError], the entry
    is recorded and the notice printed, but setting the event raises
    [KeyError] and [cleanup] is not reached. *)
Lemma run_task_completion_not_reached :
  (outcome (process mod_D ready)
   = Raises (BaseOnlyException "KeyboardInterrupt" "") /\
   outcome (_run_module_thread (describe "D" []) ready)
   = Raises (BaseOnlyException "KeyboardInterrupt" "") /\
   printed (_run_module_thread (describe "D" []) ready) = [] /\
   events (final (_run_module_thread (describe "D" []) ready)) !! "D" = Some false /\
   errors (final (_run_module_thread (describe "D" []) ready)) = [] /\
   global_errors (final (_run_module_thread (describe "D" []) ready)) = []) /\
  (outcome (setup_modules no_args (lone (describe "E" []))) = Returns tt /\
   outcome (process mod_E (lone_set_up (describe "E" [])))
   = Raises (DFTimewolfError "disk full") /\
   outcome (_run_module_thread (describe "E" []) (lone_set_up (describe "E" [])))
   = Raises (KeyError "E") /\
   printed (_run_module_thread (describe "E" []) (lone_set_up (describe "E" [])))
   = ["Module E completed"] /\
   events (final (_run_module_thread (describe "E" [])
                    (lone_set_up (describe "E" [])))) !! "E" = None /\
   errors (final (_run_module_thread (describe "E" [])
                    (lone_set_up (describe "E" [])))) = [("disk full", true)] /\
   global_errors (final (_run_module_thread (describe "E" [])
                           (lone_set_up (describe "E" [])))) = []).
Proof. vm_compute. done. Defined.

(** C5 (amended) at [ready], for module [B], which waits for [A] and
    whose [process] raises [DFTimewolfError("disk full")]. *)
Lemma run_task_records_and_signals_witness :
  run_task_completes "B" (process mod_B ready)
    (_run_module_thread (describe "B" ["A"]) ready)
    [("disk full", true)].
Proof.
  refine (proj1 (proj2 (proj1 (proj2 (run_task_records_and_signals
    (describe "B" ["A"]) ready mod_B _ _)) _)) "disk full" eq_refl).
  - intros b Hb. apply list_elem_of_singleton in Hb as ->. vm_compute. reflexivity.
  - vm_compute. reflexivity.
  - vm_compute. eauto.
Defined.

(** C6 as stated fails at [loaded] for module [D], whose [setup] raises
    [SystemExit]: the exception leaves the task and the ledger stays
    empty. *)
Lemma setup_task_SystemExit_propagates :
  outcome (setup mod_D no_args loaded) = Raises (SystemExit 1) /\
  outcome (_setup_module_thread no_args (describe "D" []) loaded)
  = Raises (SystemExit 1) /\
  errors (final (_setup_module_thread no_args (describe "D" []) loaded)) = [] /\
  global_errors (final (_setup_module_thread no_args (describe "D" []) loaded)) = [].
Proof. vm_compute. done. Defined.

(** C6 (amended) at [loaded], for module [C]. *)
Lemma setup_task_catches_Exception_witness :
  outcome (_setup_module_thread no_args (describe "C" []) loaded) = Returns tt /\
  errors (final (_setup_module_thread no_args (describe "C" []) loaded)) = [] /\
  global_errors (final (_setup_module_thread no_args (describe "C" []) loaded))
  = [("An unknown error occurred: bad path", true)].
Proof.
  refine (proj1 (setup_task_catches_Exception no_args (describe "C" []) loaded
    no_args mod_C (StdException "ValueError" "bad path") _ _ _) eq_refl).
  - reflexivity.
  - vm_compute. reflexivity.
  - reflexivity.
Defined.

(** C7 at the fresh state: [bad_recipe] names the unknown module [X]
    after [A], and [load_recipe] raises the factory's [KeyError];
    [demo_recipe] loads, and the pool has exactly its five names. *)
Lemma load_recipe_registry_witness :
  outcome (load_recipe bad_recipe s0) = Raises (KeyError "X") /\
  errors (final (load_recipe bad_recipe s0)) = [] /\
  global_errors (final (load_recipe bad_recipe s0)) = [] /\
  dom (module_pool (final (load_recipe demo_recipe s0)))
  = list_to_set ["A"; "B"; "C"; "D"; "W"].
Proof.
  destruct (load_recipe_registry bad_recipe s0) as ((He & Hg) & _ & Hfail & _).
  destruct (load_recipe_registry demo_recipe s0) as (_ & _ & _ & Hok).
  split.
  { apply (Hfail [describe "A" []] (describe "X" []) [describe "B" ["A"]]).
    - reflexivity.
    - intros d Hd. apply list_elem_of_singleton in Hd as ->.
      eexists. vm_compute. reflexivity.
    - reflexivity. }
  split; [exact He|]. split; [exact Hg|].
  apply Hok; vm_compute; reflexivity.
Defined.

(** C8 as stated fails at [s1]: the list returned by [get_containers]
    for [T] held [c0] when it was returned and holds [c0; c1] after a
    later [store_container]. *)
Lemma get_containers_result_changes :
  returned (get_containers T s1) = Some 1%positive /\
  deref 1%positive (final (get_containers T s1)) = Some [c0] /\
  deref 1%positive (final (store_container c1 (final (get_containers T s1))))
  = Some [c0; c1].
Proof. vm_compute. done. Defined.

(** C8 (amended) at [s1] for the stored tag [T], and for the unused tag
    [U], where the returned list stays empty after containers are
    stored under [U]. *)
Lemma get_containers_returns_live_list_witness :
  deref 1%positive (final (store_container c1 (final (get_containers T s1))))
  = Some ([c0] ++ [c1]) /\
  deref 2%positive
    (final (store_each [u7; u8] (final (get_containers U s1))))
  = Some [].
Proof.
  split.
  - apply (get_containers_returns_live_list s1 T c1 1%positive eq_refl).
    + vm_compute. reflexivity.
    + vm_compute. reflexivity.
  - apply (get_containers_returns_live_list s1 U u7 2%positive eq_refl).
    + vm_compute. reflexivity.
    + vm_compute. reflexivity.
Defined.

(** Dependency gating at [loaded] with the events of the setup phase:
    [B] waits for [A], whose event is still unset. *)
Lemma run_task_blocks_on_unset_blocker_witness :
  _run_module_thread (describe "B" ["A"])
    (set_events (list_to_map [("A", false); ("B", false)]) loaded)
  = mkRun [] (set_events (list_to_map [("A", false); ("B", false)]) loaded) Blocks.
Proof.
  apply (run_task_blocks_on_unset_blocker (describe "B" ["A"]) _ [] [] "A").
  - reflexivity.
  - intros b' Hb'. by apply elem_of_nil in Hb'.
  - vm_compute. reflexivity.
Defined.


(** Grouping by type at [s1], which holds [c0] under [T], and at the
    fresh state. *)
Lemma store_each_groups_by_type_witness :
  fetch T (final (store_each [c1; u7; c2] s1)) = Some [c0; c1; c2] /\
  fetch U (final (store_each [c1; u7; c2] s0)) = Some [u7].
Proof.
  split.
  - rewrite (proj2 (store_each_groups_by_type [c1; u7; c2] T) s1).
    + vm_compute. reflexivity.
    + apply store_container_keeps_allocated, init_store_invariants.
    + apply store_container_keeps_separate, init_store_invariants.
  - exact (proj1 (store_each_groups_by_type [c1; u7; c2] U) tt).
Defined.

(** Storing [u7] under [U] at [s1] leaves what [T] holds. *)
Lemma store_container_keeps_tags_apart_witness :
  stored "T" (final (store_container u7 s1)) = stored "T" s1 /\
  dom (store (final (store_container u7 s1))) = {["U"]} ∪ dom (store s1).
Proof.
  destruct (store_container_keeps_tags_apart u7 s1) as (_ & Hsep & Hdom).
  split; [|exact Hdom].
  apply Hsep; [|done].
  apply store_container_keeps_separate, init_store_invariants.
Defined.

(** [bad_recipe] at the fresh state: [A] is in the pool when the factory
    fails on [X]; [B], declared after [X], is not. *)
Lemma load_recipe_failure_keeps_earlier_modules_witness :
  outcome (load_recipe bad_recipe s0) = Raises (KeyError "X") /\
  recipe (final (load_recipe bad_recipe s0)) = Some bad_recipe /\
  (exists m, resolve tt "A" = inr m /\
             module_pool (final (load_recipe bad_recipe s0)) !! "A" = Some m) /\
  module_pool (final (load_recipe bad_recipe s0)) !! "B" = None.
Proof.
  destruct (load_recipe_failure_keeps_earlier_modules bad_recipe s0
              [describe "A" []] [describe "B" ["A"]] (describe "X" [])
              (KeyError "X")) as (Ho & Hr & Hpool).
  - reflexivity.
  - intros d Hd. apply list_elem_of_singleton in Hd as ->.
    eexists. vm_compute. reflexivity.
  - reflexivity.
  - split; [exact Ho|]. split; [exact Hr|]. split.
    + apply (proj1 (Hpool "A")). by left.
    + rewrite (proj2 (Hpool "B")); [reflexivity|].
      intros Hin. apply list_elem_of_singleton in Hin. discriminate.
Defined.

(** A second [load_recipe], declaring [A], on the state that holds [B]. *)
Lemma load_recipe_merges_into_pool_witness :
  dom (module_pool (final (load_recipe {| modules := [describe "A" []] |}
                             (lone (describe "B" [])))))
  = dom (module_pool (lone (describe "B" []))) ∪ list_to_set ["A"] /\
  module_pool (final (load_recipe {| modules := [describe "A" []] |}
                        (lone (describe "B" [])))) !! "B"
  = module_pool (lone (describe "B" [])) !! "B".
Proof.
  destruct (load_recipe_merges_into_pool {| modules := [describe "A" []] |}
              (lone (describe "B" []))) as (Hpool & Hdom & _).
  - vm_compute. reflexivity.
  - split; [exact Hdom|]. apply (proj2 (Hpool "B")).
    intros Hin. apply list_elem_of_singleton in Hin. discriminate.
Defined.

(** The setup task of a module that the pool does not hold. *)
Lemma setup_task_fails_before_setup_witness :
  _setup_module_thread no_args (describe "X" []) loaded
  = mkRun [] loaded (Raises (KeyError "X")).
Proof.
  apply (proj2 (setup_task_fails_before_setup no_args (describe "X" []) loaded)
           no_args).
  - reflexivity.
  - vm_compute. reflexivity.
Defined.

(** The run task of a module that wants [Z], which has no event. *)
Lemma run_task_fails_before_process_witness :
  _run_module_thread (describe "B" ["Z"]) ready
  = mkRun [] ready (Raises (KeyError "Z")).
Proof.
  apply (proj1 (run_task_fails_before_process (describe "B" ["Z"]) ready)
           [] "Z" []).
  - reflexivity.
  - intros b' Hb'. by apply elem_of_nil in Hb'.
  - vm_compute. reflexivity.
Defined.

(** The run task of [B] at [loaded], where no event exists: the critical
    entry stays on the local list. *)
Lemma run_task_without_own_event_witness :
  outcome (_run_module_thread (describe "B" []) loaded) = Raises (KeyError "B") /\
  printed (_run_module_thread (describe "B" []) loaded) = ["Module B completed"] /\
  errors (final (_run_module_thread (describe "B" []) loaded))
  = [("disk full", true)] /\
  global_errors (final (_run_module_thread (describe "B" []) loaded)) = [].
Proof.
  destruct (run_task_without_own_event (describe "B" []) loaded mod_B)
    as (Ho & Hp & He & Hg & _).
  - intros b Hb. by apply elem_of_nil in Hb.
  - vm_compute. reflexivity.
  - vm_compute. reflexivity.
  - right. exists (DFTimewolfError "disk full"). split; reflexivity.
  - split; [exact Ho|]. split; [exact Hp|]. split; [exact He|exact Hg].
Defined.

(** At [ready]: the run task of [B] sets the event of [B] and no other;
    a setup task of [A] binds [A] to a new unset event. *)
Lemma tasks_keep_to_own_event_witness :
  events (final (_run_module_thread (describe "B" ["A"]) ready))
  = <["B" := true]> (events (final (process mod_B ready))) /\
  events (final (_setup_module_thread no_args (describe "A" []) ready))
  = <["A" := false]> (events (final (setup mod_A no_args ready))).
Proof.
  split.
  - refine (proj1 (proj2 (tasks_keep_to_own_event no_args (describe "B" ["A"])
                            ready no_args mod_B _) _ _ _)).
    + vm_compute. reflexivity.
    + intros b Hb. apply list_elem_of_singleton in Hb as ->. vm_compute. reflexivity.
    + vm_compute. eauto.
    + right. exists (DFTimewolfError "disk full"). split; reflexivity.
  - refine (proj1 (proj1 (tasks_keep_to_own_event no_args (describe "A" [])
                            ready no_args mod_A _) _ _)).
    + vm_compute. reflexivity.
    + reflexivity.
    + left. reflexivity.
Defined.

(** On a fresh state, before any [load_recipe]. *)
Lemma phases_need_a_recipe_witness :
  exists text,
    setup_modules no_args s0 = mkRun [] s0 (Raises (StdException "TypeError" text)) /\
    run_modules s0 = mkRun [] s0 (Raises (StdException "TypeError" text)).
Proof. apply (phases_need_a_recipe no_args s0). reflexivity. Defined.

(** At [idle], whose recipe declares no module. *)
Lemma phases_with_empty_recipe_witness :
  setup_modules no_args idle = check_errors true idle /\
  run_modules idle = check_errors true idle.
Proof.
  apply (phases_with_empty_recipe no_args idle {| modules := [] |}).
  - split; intros; reflexivity.
  - reflexivity.
  - reflexivity.
Defined.

(** The setup phase of the recipe that declares [C] alone. *)
Lemma setup_phase_failure_aborts_witness :
  aborts (setup_modules no_args (lone (describe "C" []))) = true /\
  printed (setup_modules no_args (lone (describe "C" [])))
  = ["dfTimewolf encountered one or more errors:";
     "CRITICAL:   An unknown error occurred: bad path";
     "Critical error found. Aborting."].
Proof.
  destruct (setup_phase_failure_aborts no_args (lone (describe "C" []))
              {| modules := [describe "C" []] |} (describe "C" []) no_args mod_C
              (StdException "ValueError" "bad path")) as (Ha & Hp).
  - split; intros; reflexivity.
  - vm_compute. reflexivity.
  - reflexivity.
  - reflexivity.
  - vm_compute. reflexivity.
  - reflexivity.
  - reflexivity.
  - split; [exact Ha|]. apply Hp; reflexivity.
Defined.

(** The setup phase of the recipe that declares [D] alone: [SystemExit]
    ends the thread, the phase returns, and [D] has no event. *)
Lemma phases_ignore_escaping_exception_witness :
  outcome (setup_modules no_args (lone (describe "D" []))) = Returns tt /\
  printed (setup_modules no_args (lone (describe "D" []))) = [] /\
  events (final (setup_modules no_args (lone (describe "D" [])))) !! "D" = None.
Proof.
  destruct (phases_ignore_escaping_exception no_args (lone (describe "D" []))
              {| modules := [describe "D" []] |} (describe "D" []) mod_D
              (SystemExit 1)) as [Hsetup _].
  - split; intros; reflexivity.
  - vm_compute. reflexivity.
  - reflexivity.
  - vm_compute. reflexivity.
  - reflexivity.
  - rewrite (Hsetup no_args eq_refl eq_refl). vm_compute. done.
Defined.

(** The run phase of the recipe that declares [B] alone, after its setup
    phase. *)
Lemma run_phase_single_module_witness :
  events (final (run_modules (lone_set_up (describe "B" [])))) !! "B" = Some true /\
  printed (run_modules (lone_set_up (describe "B" [])))
  = ["Module B completed";
     "dfTimewolf encountered one or more errors:";
     "CRITICAL:   disk full";
     "Critical error found. Aborting."] /\
  outcome (run_modules (lone_set_up (describe "B" []))) = Raises (SystemExit (-1)).
Proof.
  destruct (run_phase_single_module (lone_set_up (describe "B" []))
              {| modules := [describe "B" []] |} (describe "B" []) mod_B)
    as (He & _ & Hp).
  - split; intros; reflexivity.
  - vm_compute. reflexivity.
  - reflexivity.
  - intros b Hb. by apply elem_of_nil in Hb.
  - vm_compute. reflexivity.
  - vm_compute. eauto.
  - right. exists (DFTimewolfError "disk full"). split; reflexivity.
  - split; [exact He|]. apply (Hp "disk full"); reflexivity.
Defined.

(** The run phase of a recipe whose one module wants itself. *)
Lemma run_phase_deadlock_witness :
  run_modules (lone_set_up (describe "A" ["A"]))
  = mkRun [] (lone_set_up (describe "A" ["A"])) Blocks.
Proof.
  apply (run_phase_deadlock (lone_set_up (describe "A" ["A"]))
           {| modules := [describe "A" ["A"]] |} (describe "A" ["A"]) [] [] "A").
  - split; intros; reflexivity.
  - vm_compute. reflexivity.
  - reflexivity.
  - reflexivity.
  - intros b' Hb'. by apply elem_of_nil in Hb'.
  - vm_compute. reflexivity.
Defined.

(** The setup phase of the recipe that declares [B] alone: [B.setup]
    returns, the phase returns, and [B] has an unset event. *)
Lemma setup_phase_single_module_witness :
  events (final (setup_modules no_args (lone (describe "B" [])))) !! "B"
  = Some false /\
  aborts (setup_modules no_args (lone (describe "B" []))) = false.
Proof.
  destruct (setup_phase_single_module no_args (lone (describe "B" []))
              {| modules := [describe "B" []] |} (describe "B" []) no_args mod_B)
    as (He & _ & Ha).
  - split; intros; reflexivity.
  - vm_compute. reflexivity.
  - reflexivity.
  - reflexivity.
  - vm_compute. reflexivity.
  - reflexivity.
  - split; [exact He|].
    destruct (aborts (setup_modules no_args (lone (describe "B" [])))) eqn:E;
      [|reflexivity].
    destruct (proj1 Ha eq_refl) as [msg Hmsg]. vm_compute in Hmsg.
    by apply elem_of_nil in Hmsg.
Defined.
